(** * merge_last_days: merging an old and a new CSV table by date

    A shallow embedding of [scripts/merge_last_days.py].  The script reads a
    freshly exported table (NEW) and an accumulated one (OLD), keeps the OLD
    rows dated before a cutoff, takes the NEW rows dated from the cutoff on
    (one per date, the last one wins), sorts the body by date and writes the
    result.

    Python values are modelled as follows.
    - [str]: [string]; a character stands for the code point of the same
      number, so the model covers text whose code points are below 256.
    - a CSV row: [list string]; a table: [list row], as [list(csv.reader(f))]
      yields it.
    - [datetime.date]: a record of year, month and day, compared as the
      library compares them (lexicographically).
    - [dict]: an association list in insertion order, as Python keeps it.
    - exceptions: the error side of [result]; the process as a whole runs in
      the monad [prog], which threads what was printed to the error stream
      and what was written to disk, and stops on [sys.exit] or on an
      exception nobody catches.
    - the surroundings: the command line as [argparse] has read it
      ([parsed]), the files ([world]) and the failures of opening and
      reading them ([faults]).  [process] is the script in any surroundings;
      [run] is the script on an accepted command line when the files that
      exist can be read. *)

From Stdlib Require Import ZArith List String Ascii Bool Lia.
From Stdlib Require Import Sorted Permutation.
Import ListNotations.

Set Implicit Arguments.

(** ** Exceptions *)

Inductive exn : Set :=
| ValueError
| IndexError
| KeyError
| TypeError
| OverflowError
| FileNotFoundError
| PermissionError
| IsADirectoryError
| UnicodeDecodeError
| CsvError.

Inductive result (A : Type) : Type :=
| Ok (a : A)
| Raise (e : exn).

Arguments Ok {A} a.
Arguments Raise {A} e.

Definition rbind {A B} (r : result A) (k : A -> result B) : result B :=
  match r with
  | Ok a => k a
  | Raise e => Raise e
  end.

Declare Scope result_scope.
Delimit Scope result_scope with result.
Notation "x <- r ;; k" := (rbind r (fun x => k))
  (at level 61, r at next level, right associativity) : result_scope.

(** ** Strings: the [str] methods the script calls *)

Module Str.

(** [str.isspace] on one character, for code points below 256. *)
Definition isspace (c : ascii) : bool :=
  let n := N_of_ascii c in
  ((9 <=? n) && (n <=? 13) || (28 <=? n) && (n <=? 32)
   || (n =? 133) || (n =? 160))%N.

Fixpoint lstrip (s : string) : string :=
  match s with
  | EmptyString => EmptyString
  | String c s' => if isspace c then lstrip s' else s
  end.

Fixpoint rstrip (s : string) : string :=
  match s with
  | EmptyString => EmptyString
  | String c s' =>
      match rstrip s' with
      | EmptyString => if isspace c then EmptyString else String c EmptyString
      | t => String c t
      end
  end.

(** [s.strip()] *)
Definition strip (s : string) : string := rstrip (lstrip s).

(** [s.split(sep)[0]]: what stands before the first [sep], all of [s] when
    there is none. *)
Fixpoint before (sep : ascii) (s : string) : string :=
  match s with
  | EmptyString => EmptyString
  | String c s' =>
      if Ascii.eqb c sep then EmptyString else String c (before sep s')
  end.

(** [not s] *)
Definition is_empty (s : string) : bool :=
  match s with
  | EmptyString => true
  | String _ _ => false
  end.

End Str.

(** ** Calendar dates: the part of [datetime.date] the script uses *)

Record date : Set := mkdate { year : Z; month : Z; day : Z }.

Module Date.

(** The library compares dates as the tuples (year, month, day). *)
Definition cmp (a b : date) : comparison :=
  match (year a ?= year b)%Z with
  | Eq => match (month a ?= month b)%Z with
          | Eq => (day a ?= day b)%Z
          | c => c
          end
  | c => c
  end.

Definition eqb (a b : date) : bool :=
  match cmp a b with Eq => true | _ => false end.
Definition ltb (a b : date) : bool :=
  match cmp a b with Lt => true | _ => false end.
(** [a >= b] *)
Definition geb (a b : date) : bool :=
  match cmp a b with Lt => false | _ => true end.

Definition le (a b : date) : Prop := ltb b a = false.

Definition is_leap (y : Z) : bool :=
  ((y mod 4 =? 0) && (negb (y mod 100 =? 0) || (y mod 400 =? 0)))%Z.

Definition DAYS_IN_MONTH : list Z :=
  [-1; 31; 28; 31; 30; 31; 30; 31; 31; 30; 31; 30; 31]%Z.
Definition DAYS_BEFORE_MONTH : list Z :=
  [-1; 0; 31; 59; 90; 120; 151; 181; 212; 243; 273; 304; 334]%Z.

Definition tab (t : list Z) (m : Z) : Z := nth (Z.to_nat m) t 0%Z.

Definition days_before_year (y : Z) : Z :=
  let y := (y - 1)%Z in (y * 365 + y / 4 - y / 100 + y / 400)%Z.

Definition days_in_month (y m : Z) : Z :=
  if ((m =? 2)%Z && is_leap y)%bool then 29%Z else tab DAYS_IN_MONTH m.

Definition days_before_month (y m : Z) : Z :=
  (tab DAYS_BEFORE_MONTH m + (if ((2 <? m)%Z && is_leap y)%bool then 1 else 0))%Z.

Definition toordinal (d : date) : Z :=
  (days_before_year (year d) + days_before_month (year d) (month d) + day d)%Z.

Definition MAXORDINAL : Z := 3652059%Z.

(** [date.fromordinal], the library's [_ord2ymd]. *)
Definition fromordinal (n : Z) : date :=
  let n := (n - 1)%Z in
  let n400 := (n / 146097)%Z in
  let n := (n mod 146097)%Z in
  let y := (n400 * 400 + 1)%Z in
  let n100 := (n / 36524)%Z in
  let n := (n mod 36524)%Z in
  let n4 := (n / 1461)%Z in
  let n := (n mod 1461)%Z in
  let n1 := (n / 365)%Z in
  let n := (n mod 365)%Z in
  let y := (y + n100 * 100 + n4 * 4 + n1)%Z in
  if ((n1 =? 4)%Z || (n100 =? 4)%Z)%bool then mkdate (y - 1) 12 31
  else
    let leapyear := ((n1 =? 3)%Z && (negb (n4 =? 24)%Z || (n100 =? 3)%Z))%bool in
    let m := Z.shiftr (n + 50) 5 in
    let preceding :=
      (tab DAYS_BEFORE_MONTH m + (if ((2 <? m)%Z && leapyear)%bool then 1 else 0))%Z in
    if (n <? preceding)%Z then
      let m := (m - 1)%Z in
      let preceding :=
        (preceding - (tab DAYS_IN_MONTH m
                      + (if ((m =? 2)%Z && leapyear)%bool then 1 else 0)))%Z in
      mkdate y m (n - preceding + 1)
    else mkdate y m (n - preceding + 1).

(** [d - datetime.timedelta(days=k)]: the difference overflows when [k] is
    no legal [timedelta] or the day falls outside years 1 to 9999. *)
Definition sub_days (d : date) (k : Z) : result date :=
  if (Z.abs k <=? 999999999)%Z then
    let o := (toordinal d - k)%Z in
    if ((0 <? o)%Z && (o <=? MAXORDINAL)%Z)%bool then Ok (fromordinal o)
    else Raise OverflowError
  else Raise OverflowError.

Definition digit (c : ascii) : option Z :=
  let n := N_of_ascii c in
  if ((48 <=? n) && (n <=? 57))%N then Some (Z.of_N n - 48)%Z else None.

Definition num2 (a b : ascii) : option Z :=
  match digit a, digit b with
  | Some x, Some y => Some (x * 10 + y)%Z
  | _, _ => None
  end.

Definition valid (y m d : Z) : bool :=
  ((1 <=? y) && (y <=? 9999) && (1 <=? m) && (m <=? 12)
   && (1 <=? d) && (d <=? days_in_month y m))%Z.

(** [date.fromisoformat] on the form YYYY-MM-DD, the one every version of
    the library reads; [None] stands for its [ValueError]. *)
Definition fromisoformat_ymd (s : string) : option date :=
  match list_ascii_of_string s with
  | [y1; y2; y3; y4; h1; m1; m2; h2; d1; d2] =>
      if (Ascii.eqb h1 "-" && Ascii.eqb h2 "-")%bool then
        match num2 y1 y2, num2 y3 y4, num2 m1 m2, num2 d1 d2 with
        | Some yh, Some yl, Some m, Some d =>
            let y := (yh * 100 + yl)%Z in
            if valid y m d then Some (mkdate y m d) else None
        | _, _, _, _ => None
        end
      else None
  | _ => None
  end.

End Date.


(** ** Lists, sorting and dictionaries *)

Definition row : Set := list string.

(** [l.index(x)]: the first position of [x]; [None] stands for the
    [ValueError] the method raises when [x] is absent. *)
Fixpoint index (x : string) (l : list string) : option nat :=
  match l with
  | [] => None
  | y :: l' =>
      if String.eqb y x then Some O
      else match index x l' with
           | Some i => Some (S i)
           | None => None
           end
  end.

(** [l[i]] for an index that is not negative. *)
Definition getitem {A} (l : list A) (i : nat) : result A :=
  match nth_error l i with
  | Some a => Ok a
  | None => Raise IndexError
  end.

Fixpoint mapM {A B} (f : A -> result B) (l : list A) : result (list B) :=
  match l with
  | [] => Ok []
  | x :: l' =>
      (y <- f x ;; ys <- mapM f l' ;; Ok (y :: ys))%result
  end.

Section Sorting.

Variable A : Type.
Variable key : A -> date.

Fixpoint insert (x : A) (l : list A) : list A :=
  match l with
  | [] => [x]
  | y :: l' =>
      if Date.ltb (key y) (key x) then y :: insert x l' else x :: y :: l'
  end.

(** [sorted(l, key=key)].  Python's sort is stable and compares keys with
    [<] only; the list a stable sort returns does not depend on the
    algorithm (see [stable_sort_unique]), so insertion from the right
    computes it. *)
Fixpoint sorted (l : list A) : list A :=
  match l with
  | [] => []
  | x :: l' => insert x (sorted l')
  end.

(** The order of two elements by their keys, and the elements of one key. *)
Definition key_le (x y : A) : Prop := Date.le (key x) (key y).
Definition keyed (d : date) (x : A) : bool := Date.eqb (key x) d.

End Sorting.

Module Dict.

Definition t : Set := list (date * row).

(** [m[k] = v]: a key already present keeps its place. *)
Fixpoint set (k : date) (v : row) (m : t) : t :=
  match m with
  | [] => [(k, v)]
  | (k', v') :: m' =>
      if Date.eqb k' k then (k', v) :: m' else (k', v') :: set k v m'
  end.

(** [m[k]] *)
Fixpoint get (m : t) (k : date) : result row :=
  match m with
  | [] => Raise KeyError
  | (k', v') :: m' => if Date.eqb k' k then Ok v' else get m' k
  end.

(** [m.keys()] *)
Definition keys (m : t) : list date := map fst m.

End Dict.

(** ** The process: error stream, files, exit *)

Record file : Set := mkfile { f_size : Z; f_rows : list row }.

(** What the script sees of its surroundings: the files that exist, each with
    its size in bytes and the rows [csv.reader] yields for it when it can be
    read, and the calendar date of the run.  A path outside [fs] does not
    exist; the output path can be written. *)
Record world : Type := mkworld { fs : string -> option file; today : date }.

(** The paths that cannot be opened or read, each with the exception that
    [open] or the reading raises: no permission, a directory, bytes that are
    not UTF-8, CSV that the reader refuses. *)
Definition faults : Type := string -> option exn.

Definition no_fault : faults := fun _ => None.

Record args : Set := mkargs {
  arg_old : option string;
  arg_new : string;
  arg_out : string;
  keep_days : Z;
  date_col : string
}.

(** What [ap.parse_args()] makes of the command line: the arguments, or an
    exit of its own, with status 0 after [--help], with status 2 and a
    message on the error stream for a command line it refuses. *)
Inductive parsed : Set :=
| Parsed (a : args)
| HelpShown
| UsageError (msg : string).

Record effects : Set := mkeff {
  stderr : list string;
  written : list (string * list row)
}.

Inductive halt : Set :=
| SysExit (code : Z)
| Uncaught (e : exn).

Inductive step (A : Type) : Type :=
| Next (a : A)
| Halt (h : halt).

Arguments Next {A} a.
Arguments Halt {A} h.

Definition prog (A : Type) : Type := effects -> effects * step A.

Definition ret {A} (a : A) : prog A := fun e => (e, Next a).

Definition bind {A B} (p : prog A) (k : A -> prog B) : prog B :=
  fun e =>
    match p e with
    | (e', Next a) => k a e'
    | (e', Halt h) => (e', Halt h)
    end.

Declare Scope prog_scope.
Delimit Scope prog_scope with prog.
Notation "x <- p ;; k" := (bind p (fun x => k))
  (at level 61, p at next level, right associativity) : prog_scope.
Notation "p ;; k" := (bind p (fun _ => k))
  (at level 61, right associativity) : prog_scope.

(** [print(msg, file=sys.stderr)] *)
Definition eprint (msg : string) : prog unit :=
  fun e => (mkeff (stderr e ++ [msg]) (written e), Next tt).

(** [sys.exit(code)] *)
Definition sys_exit {A} (code : Z) : prog A :=
  fun e => (e, Halt (SysExit code)).

(** An exception that reaches the top level ends the process.  The
    traceback the interpreter prints then is not a print of the script: it
    is added by [error_stream]. *)
Definition lift {A} (r : result A) : prog A :=
  fun e =>
    match r with
    | Ok a => (e, Next a)
    | Raise x => (e, Halt (Uncaught x))
    end.

(** Reading a path that raises no failure of its own: the rows of the file,
    [FileNotFoundError] when there is no file. *)
Definition read_csv (w : world) (path : string) : result (list row) :=
  match fs w path with
  | Some f => Ok (f_rows f)
  | None => Raise FileNotFoundError
  end.

(** [open(path, newline='', encoding="utf-8")], [csv.reader], [list]. *)
Definition open_csv (io : faults) (w : world) (path : string)
  : result (list row) :=
  match io path with
  | Some x => Raise x
  | None => read_csv w path
  end.

(** [open(path, "w")], [csv.writer], [writerows]. *)
Definition write_csv (path : string) (table : list row) : prog unit :=
  fun e => (mkeff (stderr e) (written e ++ [(path, table)]), Next tt).

(** The status the interpreter hands to the shell: 0 at the end of [main],
    the argument of [sys.exit], 1 after a traceback. *)
Definition exit_status {A} (s : step A) : Z :=
  match s with
  | Next _ => 0%Z
  | Halt (SysExit c) => c
  | Halt (Uncaught _) => 1%Z
  end.

(** What the error stream holds when the process is over: the lines that
    were printed, then the traceback of the interpreter when an exception
    was caught by nobody.  [sys.exit] with a number prints nothing. *)
Inductive line : Set :=
| Printed (s : string)
| Traceback (x : exn).

Definition error_stream {A} (r : effects * step A) : list line :=
  map Printed (stderr (fst r))
  ++ match snd r with
     | Halt (Uncaught x) => [Traceback x]
     | _ => []
     end.

(** ** The script *)

Section Script.

(** [datetime.date.fromisoformat]; [None] stands for its [ValueError].
    Which strings it reads beyond YYYY-MM-DD depends on the version of the
    library, so the script is modelled over any such function;
    [Date.fromisoformat_ymd] is the one used in the scenarios. *)
Variable fromisoformat : string -> option date.

Definition parse_date (s : string) : result (option date) :=
  let s := Str.strip s in
  if Str.is_empty s then Ok None
  else
    let s := Str.before " " (Str.before "T" s) in
    match fromisoformat s with
    | Some d => Ok (Some d)
    | None => Raise ValueError
    end.

(** [parse_date(row[di])] *)
Definition date_at (di : nat) (r : row) : result (option date) :=
  (s <- getitem r di ;; parse_date s)%result.

(** The loop over [new_rows[1:]] that fills [new_recent]. *)
Fixpoint index_new (header : row) (di : nat) (cutoff : date)
         (rows : list row) (new_recent : Dict.t) : result Dict.t :=
  match rows with
  | [] => Ok new_recent
  | r :: rest =>
      if negb (List.length r =? List.length header)%nat then
        index_new header di cutoff rest new_recent
      else
        (d <- date_at di r ;;
         match d with
         | None => index_new header di cutoff rest new_recent
         | Some d =>
             if Date.geb d cutoff then
               index_new header di cutoff rest (Dict.set d r new_recent)
             else index_new header di cutoff rest new_recent
         end)%result
  end.

(** The loop over [old_body]: the rows it appends to [merged], in order.
    Its [try] swallows whatever [parse_date(row[di])] raises. *)
Fixpoint keep_old (header : row) (di : nat) (cutoff : date)
         (old_body : list row) : list row :=
  match old_body with
  | [] => []
  | r :: rest =>
      if negb (List.length r =? List.length header)%nat then
        keep_old header di cutoff rest
      else
        match date_at di r with
        | Raise _ => keep_old header di cutoff rest
        | Ok None => keep_old header di cutoff rest
        | Ok (Some d) =>
            if Date.ltb d cutoff then r :: keep_old header di cutoff rest
            else keep_old header di cutoff rest
        end
  end.

(** The keys of a decorated list when none of them is [None]. *)
Fixpoint all_dates {A} (l : list (option date * A)) : option (list (date * A)) :=
  match l with
  | [] => Some []
  | (Some d, a) :: l' =>
      match all_dates l' with
      | Some ds => Some ((d, a) :: ds)
      | None => None
      end
  | (None, _) :: _ => None
  end.

(** [sorted(body, key=lambda r: parse_date(r[di]))].  The keys are computed
    first, one per row; a key function that raises ends the sort.  A key
    that is [None] cannot be compared, which is a [TypeError] as soon as
    there are two rows. *)
Definition sorted_by_date (di : nat) (body : list row) : result (list row) :=
  (ks <- mapM (fun r => k <- date_at di r ;; Ok (k, r)) body ;;
   match all_dates ks with
   | Some l => Ok (map snd (sorted fst l))
   | None =>
       match body with
       | _ :: _ :: _ => Raise TypeError
       | _ => Ok body
       end
   end)%result.

(** From the cutoff to the table that is written. *)
Definition merge (header : row) (di : nat) (cutoff : date)
           (new_body old_body : list row) : result (list row) :=
  (new_recent <- index_new header di cutoff new_body [] ;;
   let merged := header :: keep_old header di cutoff old_body in
   recent <- mapM (Dict.get new_recent)
                  (sorted (fun d => d) (Dict.keys new_recent)) ;;
   let merged := merged ++ recent in
   let body := tl merged in
   body_sorted <- sorted_by_date di body ;;
   Ok (header :: body_sorted))%result.

Definition WARNING : string :=
  "WARNING: headers differ; using NEW header & NEW data for recent window".

(** Whether OLD is read: [args.old and os.path.exists(args.old) and
    os.path.getsize(args.old) > 0]. *)
Definition old_given (a : args) (w : world) : option string :=
  match arg_old a with
  | Some p =>
      if Str.is_empty p then None
      else match fs w p with
           | Some f => if (0 <? f_size f)%Z then Some p else None
           | None => None
           end
  | None => None
  end.

(** Reading OLD when it is given: the rows, [[header]] for a file without
    rows, and the warning when the first row is not the header of NEW.  The
    [open] and the reading stand outside any [try]. *)
Definition load_old (io : faults) (a : args) (w : world) (header : row)
  : prog (list row) :=
  match old_given a w with
  | Some p =>
      (old_rows <- lift (open_csv io w p) ;;
       let old_rows := match old_rows with [] => [header] | _ => old_rows end in
       (if list_eq_dec string_dec (hd [] old_rows) header then ret tt
        else eprint WARNING) ;;
       ret old_rows)%prog
  | None => ret []
  end.

(** [args = ap.parse_args()] *)
Definition parse_args (c : parsed) : prog args :=
  match c with
  | Parsed a => ret a
  | HelpShown => sys_exit 0
  | UsageError msg => (eprint msg ;; sys_exit 2)%prog
  end.

(** [main()], from the command line to the table written. *)
Definition main (io : faults) (c : parsed) (w : world) : prog unit :=
  (a <- parse_args c ;;
   new_rows <- lift (open_csv io w (arg_new a)) ;;
   match new_rows with
   | [] => eprint "ERROR: new CSV is empty" ;; sys_exit 2
   | header :: new_body =>
       match index (date_col a) header with
       | None =>
           eprint ("ERROR: date column '" ++ date_col a
                   ++ "' not found in NEW header") ;;
           sys_exit 2
       | Some di =>
           old_rows <- load_old io a w header ;;
           cutoff <- lift (Date.sub_days (today w) (keep_days a)) ;;
           merged <- lift (merge header di cutoff new_body (tl old_rows)) ;;
           write_csv (arg_out a) merged
       end
   end)%prog.

(** The process starts with nothing printed and nothing written. *)
Definition process (io : faults) (c : parsed) (w : world)
  : effects * step unit :=
  main io c w (mkeff [] []).

(** A run: the process on a command line that was accepted, when every
    file that exists can be read. *)
Definition run (a : args) (w : world) : effects * step unit :=
  process no_fault (Parsed a) w.

(** *** Vocabulary of the properties *)

(** The date a row carries in column [di], for the rows that carry one. *)
Definition key (di : nat) (r : row) : date :=
  match date_at di r with
  | Ok (Some d) => d
  | _ => mkdate 0 0 0
  end.

Definition has_date (di : nat) (d : date) (r : row) : bool :=
  match date_at di r with
  | Ok (Some d') => Date.eqb d' d
  | _ => false
  end.

(** A usable row: as many fields as the header and a date that parses. *)
Definition usable (header : row) (di : nat) (r : row) (d : date) : Prop :=
  List.length r = List.length header /\ date_at di r = Ok (Some d).

Definition usableb (header : row) (di : nat) (d : date) (r : row) : bool :=
  ((List.length r =? List.length header)%nat && has_date di d r)%bool.

(** The usable row dated [d] that comes last in [rows]. *)
Fixpoint last_usable (header : row) (di : nat) (d : date) (rows : list row)
  : option row :=
  match rows with
  | [] => None
  | r :: rest =>
      match last_usable header di d rest with
      | Some r' => Some r'
      | None => if usableb header di d r then Some r else None
      end
  end.

(** The order of two rows by their dates. *)
Definition row_le (di : nat) (r1 r2 : row) : Prop :=
  match date_at di r1, date_at di r2 with
  | Ok (Some d1), Ok (Some d2) => Date.le d1 d2
  | _, _ => False
  end.

(** No row with the header's number of fields has a date that fails to
    parse. *)
Definition clean (header : row) (di : nat) (rows : list row) : Prop :=
  forall r, In r rows -> List.length r = List.length header ->
            date_at di r <> Raise ValueError.

(** What holds of every entry of [new_recent]: the row is usable, carries
    the date it is filed under, and that date is in the recent window. *)
Definition entry_ok (header : row) (di : nat) (cutoff : date)
           (p : date * row) : Prop :=
  usable header di (snd p) (fst p) /\ Date.geb (fst p) cutoff = true.

(** The rows [merge] appends for the recent window. *)
Definition recent (new_recent : Dict.t) : list row :=
  map snd (sorted fst new_recent).

(** What [load_old] hands to the rest of [main] in a run: the rows of OLD
    and the warning it prints, if any. *)
Definition old_rows_of (a : args) (w : world) (header : row) : list row :=
  match snd (load_old no_fault a w header (mkeff [] [])) with
  | Next old_rows => old_rows
  | Halt _ => []
  end.

Definition warnings_of (a : args) (w : world) (header : row) : list string :=
  stderr (fst (load_old no_fault a w header (mkeff [] []))).

(** The tables and the cutoff a run works on, once it has got past its
    checks of NEW. *)
Definition loaded (a : args) (w : world) (header : row)
           (new_body old_body : list row) (di : nat) (cutoff : date) : Prop :=
  read_csv w (arg_new a) = Ok (header :: new_body)
  /\ index (date_col a) header = Some di
  /\ old_body = tl (old_rows_of a w header)
  /\ Date.sub_days (today w) (keep_days a) = Ok cutoff.

End Script.

(** A file system given by the list of its files. *)
Definition files (l : list (string * file)) : string -> option file :=
  fun p =>
    match find (fun e => String.eqb (fst e) p) l with
    | Some e => Some (snd e)
    | None => None
    end.

(** ** Scenarios *)

Module Scenario.

Local Open Scope string_scope.

Definition header : row := ["Date"; "Value"].

(** OLD: 2024-01-01 to 2024-01-05 with the values 1 to 5. *)
Definition old_table : list row :=
  [header;
   ["2024-01-01"; "1"]; ["2024-01-02"; "2"]; ["2024-01-03"; "3"];
   ["2024-01-04"; "4"]; ["2024-01-05"; "5"]].

(** NEW: 2024-01-04 to 2024-01-06 with the values 40, 50 and 60. *)
Definition new_table : list row :=
  [header; ["2024-01-04"; "40"]; ["2024-01-05"; "50"]; ["2024-01-06"; "60"]].

Definition expected_body : list row :=
  [["2024-01-01"; "1"]; ["2024-01-02"; "2"]; ["2024-01-03"; "3"];
   ["2024-01-04"; "40"]; ["2024-01-05"; "50"]; ["2024-01-06"; "60"]].

Definition a : args := mkargs (Some "old.csv") "new.csv" "out.csv" 2 "Date".

Definition w : world :=
  mkworld (files [("old.csv", mkfile 76 old_table);
                  ("new.csv", mkfile 53 new_table)])
          (mkdate 2024 1 6).

(** NEW with a date that is no date, and no OLD. *)
Definition garbage_table : list row := [header; ["garbage"; "1"]].

Definition a_new_only : args := mkargs None "new.csv" "out.csv" 2 "Date".

Definition w_garbage : world :=
  mkworld (files [("new.csv", mkfile 21 garbage_table)]) (mkdate 2024 1 6).

(** No file at all. *)
Definition w_nothing : world := mkworld (files []) (mkdate 2024 1 6).

(** NEW without a single row, NEW without the date column, NEW with its
    header only. *)
Definition w_empty : world :=
  mkworld (files [("new.csv", mkfile 0 [])]) (mkdate 2024 1 6).

Definition w_no_column : world :=
  mkworld (files [("new.csv", mkfile 24 [["Day"; "Value"]; ["2024-01-04"; "40"]])])
          (mkdate 2024 1 6).

Definition w_header_only : world :=
  mkworld (files [("old.csv", mkfile 76 old_table);
                  ("new.csv", mkfile 11 [header])])
          (mkdate 2024 1 6).

(** OLD under another header. *)
Definition w_drift : world :=
  mkworld (files [("old.csv", mkfile 24 [["Date"; "Close"]; ["2024-01-01"; "1"]]);
                  ("new.csv", mkfile 53 new_table)])
          (mkdate 2024 1 6).

(** NEW with two rows for 2024-01-05. *)
Definition w_twice : world :=
  mkworld (files [("new.csv",
                   mkfile 59 [header; ["2024-01-05"; "50"]; ["2024-01-04"; "40"];
                              ["2024-01-05 17:30"; "51"]])])
          (mkdate 2024 1 6).

End Scenario.

(** ** Further scenarios *)

Module Scenario2.

Local Open Scope string_scope.

(** OLD out of order, with 2024-01-02 twice. *)
Definition old_repeat : list row :=
  [Scenario.header;
   ["2024-01-02"; "2"]; ["2024-01-01"; "1"]; ["2024-01-02"; "2b"];
   ["2024-01-05"; "5"]].

Definition w_repeat : world :=
  mkworld (files [("old.csv", mkfile 64 old_repeat);
                  ("new.csv", mkfile 53 Scenario.new_table)])
          (mkdate 2024 1 6).

(** OLD with one column more than NEW. *)
Definition old_wide : list row :=
  [["Date"; "Value"; "Note"]; ["2024-01-01"; "1"; "x"]; ["2024-01-02"; "2"; "y"]].

Definition w_wide : world :=
  mkworld (files [("old.csv", mkfile 46 old_wide);
                  ("new.csv", mkfile 53 Scenario.new_table)])
          (mkdate 2024 1 6).

(** The table written by the first scenario, put back as OLD. *)
Definition w_rerun : world :=
  mkworld (files [("old.csv",
                   mkfile 92 (Scenario.header :: Scenario.expected_body));
                  ("new.csv", mkfile 53 Scenario.new_table)])
          (mkdate 2024 1 6).

(** A window of days that is no [timedelta]. *)
Definition a_huge : args :=
  mkargs None "new.csv" "out.csv" 1000000000 "Date".

Definition w_new : world :=
  mkworld (files [("new.csv", mkfile 53 Scenario.new_table)]) (mkdate 2024 1 6).

(** NEW whose bytes are not UTF-8: the file is there, reading it raises. *)
Definition io_new_undecodable : faults :=
  fun p => if String.eqb p "new.csv" then Some UnicodeDecodeError else None.


(** NEW with two columns under the name of the date column, the dates in
    the first of them. *)
Definition two_dates_table : list row :=
  [["Date"; "Value"; "Date"];
   ["2024-01-05"; "50"; "n/a"]; ["2024-01-04"; "40"; "n/a"]].

Definition w_two_dates : world :=
  mkworld (files [("new.csv", mkfile 60 two_dates_table)]) (mkdate 2024 1 6).

End Scenario2.

(** ** Vocabulary of the further properties *)

(** A string of whitespace only, as [str.strip] sees it. *)
Fixpoint blank (s : string) : bool :=
  match s with
  | EmptyString => true
  | String c s' => Str.isspace c && blank s'
  end.

(** A string without whitespace and without the letter T: the date part of
    a field, which neither [strip] nor the two [split]s cut. *)
Fixpoint plain (s : string) : bool :=
  match s with
  | EmptyString => true
  | String c s' => negb (Str.isspace c) && negb (Ascii.eqb c "T") && plain s'
  end.

(** * Properties *)

Unset Implicit Arguments.

(** ** Dates are totally ordered *)

Module DateFacts.

Ltac cases :=
  repeat match goal with
         | |- context [(?x ?= ?y)%Z] => destruct (Z.compare_spec x y)
         | H : context [(?x ?= ?y)%Z] |- _ => destruct (Z.compare_spec x y)
         end;
  simpl in *; subst; try discriminate; try lia; auto.

Lemma eqb_eq (a b : date) : Date.eqb a b = true <-> a = b.
Proof.
  destruct a as [y m d], b as [y' m' d']; unfold Date.eqb, Date.cmp; simpl.
  split; intro H.
  - cases.
  - injection H as -> -> ->. rewrite !Z.compare_refl. reflexivity.
Qed.

Lemma eqb_refl (a : date) : Date.eqb a a = true.
Proof. apply eqb_eq; reflexivity. Qed.

Lemma eqb_sym (a b : date) : Date.eqb a b = Date.eqb b a.
Proof.
  destruct (Date.eqb a b) eqn:E, (Date.eqb b a) eqn:E'; auto.
  - apply eqb_eq in E; subst. rewrite eqb_refl in E'. discriminate.
  - apply eqb_eq in E'; subst. rewrite eqb_refl in E. discriminate.
Qed.

Lemma geb_ltb (a b : date) : Date.geb a b = negb (Date.ltb a b).
Proof. unfold Date.geb, Date.ltb. destruct (Date.cmp a b); reflexivity. Qed.

Lemma ltb_irrefl (a : date) : Date.ltb a a = false.
Proof.
  destruct a; unfold Date.ltb, Date.cmp; simpl. rewrite !Z.compare_refl.
  reflexivity.
Qed.

Lemma ltb_trans (a b c : date) :
  Date.ltb a b = true -> Date.ltb b c = true -> Date.ltb a c = true.
Proof.
  destruct a as [y m d], b as [y' m' d'], c as [y'' m'' d''].
  unfold Date.ltb, Date.cmp; simpl. intros H1 H2. cases.
Qed.

Lemma ltb_asym (a b : date) : Date.ltb a b = true -> Date.ltb b a = false.
Proof.
  destruct a as [y m d], b as [y' m' d'].
  unfold Date.ltb, Date.cmp; simpl. intros H1. cases.
Qed.

Lemma ltb_total (a b : date) :
  Date.ltb a b = false -> Date.ltb b a = false -> a = b.
Proof.
  destruct a as [y m d], b as [y' m' d'].
  unfold Date.ltb, Date.cmp; simpl. intros H1 H2. cases.
Qed.

Lemma le_refl (a : date) : Date.le a a.
Proof. apply ltb_irrefl. Qed.

Lemma le_trans (a b c : date) : Date.le a b -> Date.le b c -> Date.le a c.
Proof.
  unfold Date.le.
  destruct a as [y m d], b as [y' m' d'], c as [y'' m'' d''].
  unfold Date.ltb, Date.cmp; simpl. intros H1 H2. cases.
Qed.

Lemma lt_le (a b : date) : Date.ltb a b = true -> Date.le a b.
Proof. apply ltb_asym. Qed.

Lemma le_antisym (a b : date) : Date.le a b -> Date.le b a -> a = b.
Proof. unfold Date.le. intros H1 H2. apply ltb_total; assumption. Qed.

End DateFacts.

(** ** Sorting: a permutation, in order, stable *)

Section SortingFacts.

Variable A : Type.
Variable key : A -> date.

Lemma insert_perm (x : A) (l : list A) : Permutation (insert key x l) (x :: l).
Proof.
  induction l as [|y l IH]; simpl.
  - apply Permutation_refl.
  - destruct (Date.ltb (key y) (key x)).
    + eapply perm_trans; [apply perm_skip, IH | apply perm_swap].
    + apply Permutation_refl.
Qed.

Lemma sorted_perm (l : list A) : Permutation (sorted key l) l.
Proof.
  induction l as [|x l IH]; simpl.
  - apply perm_nil.
  - eapply perm_trans; [apply insert_perm | apply perm_skip, IH].
Qed.

Lemma sorted_In (l : list A) (x : A) : In x (sorted key l) <-> In x l.
Proof.
  split; apply Permutation_in;
    [apply sorted_perm | apply Permutation_sym, sorted_perm].
Qed.

Lemma insert_sorted (x : A) (l : list A) :
  StronglySorted (key_le key) l -> StronglySorted (key_le key) (insert key x l).
Proof.
  induction 1 as [|y l Hl IH Hy]; simpl.
  - constructor; [constructor | constructor].
  - destruct (Date.ltb (key y) (key x)) eqn:E.
    + constructor; [exact IH|].
      apply Forall_forall. intros z Hz.
      apply (Permutation_in _ (insert_perm x l)) in Hz.
      destruct Hz as [<- | Hz].
      * apply DateFacts.lt_le, E.
      * rewrite Forall_forall in Hy. apply Hy, Hz.
    + constructor; [constructor; assumption|].
      constructor; [exact E|].
      apply Forall_forall. intros z Hz.
      rewrite Forall_forall in Hy.
      apply DateFacts.le_trans with (key y); [exact E | apply Hy, Hz].
Qed.

Lemma sorted_sorted (l : list A) : StronglySorted (key_le key) (sorted key l).
Proof.
  induction l as [|x l IH]; simpl.
  - constructor.
  - apply insert_sorted, IH.
Qed.

Lemma insert_keyed (d : date) (x : A) (l : list A) :
  filter (keyed key d) (insert key x l) = filter (keyed key d) (x :: l).
Proof.
  induction l as [|y l IH]; simpl; [reflexivity|].
  destruct (Date.ltb (key y) (key x)) eqn:E; [|reflexivity].
  simpl. rewrite IH. simpl. unfold keyed.
  destruct (Date.eqb (key y) d) eqn:Ey, (Date.eqb (key x) d) eqn:Ex;
    try reflexivity.
  apply DateFacts.eqb_eq in Ey, Ex. rewrite Ey, Ex in E.
  rewrite DateFacts.ltb_irrefl in E. discriminate.
Qed.

(** Stability: the rows of one date leave the sort in the order they had. *)
Lemma sorted_keyed (d : date) (l : list A) :
  filter (keyed key d) (sorted key l) = filter (keyed key d) l.
Proof.
  induction l as [|x l IH]; simpl; [reflexivity|].
  rewrite insert_keyed. simpl. rewrite IH. reflexivity.
Qed.

Lemma keyed_head (x : A) (l : list A) :
  filter (keyed key (key x)) (x :: l) = x :: filter (keyed key (key x)) l.
Proof. simpl. unfold keyed at 1. rewrite DateFacts.eqb_refl. reflexivity. Qed.

Lemma keyed_nonempty_In (d : date) (l : list A) (x : A) (t : list A) :
  filter (keyed key d) l = x :: t -> In x l /\ key x = d.
Proof.
  intros H.
  assert (Hin : In x (filter (keyed key d) l)) by (rewrite H; left; reflexivity).
  apply filter_In in Hin. destruct Hin as [Hin Hk].
  split; [exact Hin | apply DateFacts.eqb_eq, Hk].
Qed.

(** Two lists in order that agree date by date are the same list. *)
Lemma sorted_keyed_eq (l1 l2 : list A) :
  StronglySorted (key_le key) l1 -> StronglySorted (key_le key) l2 ->
  (forall d, filter (keyed key d) l1 = filter (keyed key d) l2) -> l1 = l2.
Proof.
  intros S1. revert l2.
  induction S1 as [|x l1 S1 IH Hx]; intros l2 S2 Heq.
  - destruct l2 as [|y l2]; [reflexivity|].
    specialize (Heq (key y)). rewrite keyed_head in Heq. discriminate.
  - destruct l2 as [|y l2].
    + specialize (Heq (key x)). rewrite keyed_head in Heq. discriminate.
    + inversion S2 as [|? ? S2' Hy]; subst.
      assert (Hk : key x = key y).
      { apply DateFacts.le_antisym.
        - pose proof (Heq (key y)) as H. rewrite (keyed_head y) in H.
          apply keyed_nonempty_In in H. destruct H as [[<- | Hin] _].
          + apply DateFacts.le_refl.
          + rewrite Forall_forall in Hx. apply Hx, Hin.
        - pose proof (Heq (key x)) as H. rewrite (keyed_head x) in H.
          symmetry in H.
          apply keyed_nonempty_In in H. destruct H as [[<- | Hin] _].
          + apply DateFacts.le_refl.
          + rewrite Forall_forall in Hy. apply Hy, Hin. }
      assert (Hxy : x = y).
      { pose proof (Heq (key x)) as H. rewrite keyed_head in H.
        rewrite Hk in H at 2. rewrite keyed_head in H. congruence. }
      subst y. f_equal. apply IH; [exact S2'|].
      intros d. specialize (Heq d). simpl in Heq.
      destruct (keyed key d x); congruence.
Qed.

(** What a stable sort returns is determined by the list and the keys. *)
Lemma stable_sort_unique (l l' : list A) :
  StronglySorted (key_le key) l' ->
  (forall d, filter (keyed key d) l' = filter (keyed key d) l) ->
  l' = sorted key l.
Proof.
  intros S H. apply sorted_keyed_eq; [exact S | apply sorted_sorted|].
  intros d. rewrite sorted_keyed. apply H.
Qed.

End SortingFacts.

Lemma sorted_map (A B : Type) (f : A -> B) (keyB : B -> date) (l : list A) :
  sorted keyB (map f l) = map f (sorted (fun a => keyB (f a)) l).
Proof.
  induction l as [|x l IH]; simpl; [reflexivity|].
  rewrite IH. generalize (sorted (fun a => keyB (f a)) l) as s.
  induction s as [|y s IHs]; simpl; [reflexivity|].
  destruct (Date.ltb (keyB (f y)) (keyB (f x))); simpl; [|reflexivity].
  rewrite IHs. reflexivity.
Qed.

(** ** Lists and dictionaries *)

Lemma index_Some (x : string) (l : list string) (i : nat) :
  index x l = Some i -> (i < List.length l)%nat /\ nth_error l i = Some x.
Proof.
  revert i. induction l as [|y l IH]; simpl; intros i H; [discriminate|].
  destruct (String.eqb_spec y x) as [->|_].
  - injection H as <-. split; [lia | reflexivity].
  - destruct (index x l) as [j|]; [|discriminate].
    injection H as <-. destruct (IH j eq_refl) as [Hlt Hnth].
    split; [lia | exact Hnth].
Qed.

Lemma index_None (x : string) (l : list string) :
  index x l = None <-> ~ In x l.
Proof.
  induction l as [|y l IH]; simpl.
  - split; [intros _ [] | reflexivity].
  - destruct (String.eqb_spec y x) as [->|Hne].
    + split; [discriminate | intros H; destruct H; left; reflexivity].
    + destruct (index x l).
      * split; [discriminate|]. intros H. exfalso.
        destruct IH as [IH1 IH2].
        assert (Hin : In x l).
        { destruct (in_dec string_dec x l) as [Hin|Hnin]; [exact Hin|].
          specialize (IH2 Hnin). discriminate. }
        apply H. right. exact Hin.
      * split; [|reflexivity]. intros _ [Heq|Hin]; [contradiction|].
        destruct IH as [IH1 _]. exact (IH1 eq_refl Hin).
Qed.

Lemma getitem_lt (A : Type) (l : list A) (i : nat) :
  (i < List.length l)%nat -> exists a, getitem l i = Ok a.
Proof.
  intros H. unfold getitem. destruct (nth_error l i) eqn:E.
  - eexists; reflexivity.
  - apply nth_error_None in E. lia.
Qed.

Lemma mapM_ok (A B : Type) (f : A -> result B) (g : A -> B) (l : list A) :
  (forall x, In x l -> f x = Ok (g x)) -> mapM f l = Ok (map g l).
Proof.
  induction l as [|x l IH]; simpl; intros H; [reflexivity|].
  rewrite (H x (or_introl eq_refl)). simpl.
  rewrite IH by (intros y Hy; apply H; right; exact Hy). reflexivity.
Qed.

Module DictFacts.

Lemma get_set (k k' : date) (v : row) (m : Dict.t) :
  Dict.get (Dict.set k v m) k' =
  if Date.eqb k k' then Ok v else Dict.get m k'.
Proof.
  induction m as [|[k0 v0] m IH]; simpl; [reflexivity|].
  destruct (Date.eqb k0 k) eqn:E; simpl.
  - apply DateFacts.eqb_eq in E. subst k0.
    destruct (Date.eqb k k'); reflexivity.
  - rewrite IH. destruct (Date.eqb k0 k') eqn:E'; [|reflexivity].
    apply DateFacts.eqb_eq in E'. subst k0.
    rewrite DateFacts.eqb_sym, E. reflexivity.
Qed.

Lemma keys_set (k k' : date) (v : row) (m : Dict.t) :
  In k' (Dict.keys (Dict.set k v m)) <-> k' = k \/ In k' (Dict.keys m).
Proof.
  unfold Dict.keys. induction m as [|[k0 v0] m IH]; simpl.
  - intuition.
  - destruct (Date.eqb k0 k) eqn:E; simpl.
    + apply DateFacts.eqb_eq in E. subst k0. intuition.
    + rewrite IH. intuition.
Qed.

Lemma NoDup_set (k : date) (v : row) (m : Dict.t) :
  NoDup (Dict.keys m) -> NoDup (Dict.keys (Dict.set k v m)).
Proof.
  induction m as [|[k0 v0] m IH]; simpl; intros H.
  - constructor; [intros [] | constructor].
  - inversion H as [|? ? Hnin Hm]; subst.
    destruct (Date.eqb k0 k) eqn:E; simpl.
    + constructor; assumption.
    + constructor; [|apply IH, Hm].
      intros Hin. apply keys_set in Hin. destruct Hin as [->|Hin].
      * rewrite DateFacts.eqb_refl in E. discriminate.
      * contradiction.
Qed.

Lemma Forall_set (P : date * row -> Prop) (k : date) (v : row) (m : Dict.t) :
  P (k, v) -> Forall P m -> Forall P (Dict.set k v m).
Proof.
  intros Hkv. induction 1 as [|[k0 v0] m H0 Hm IH]; simpl.
  - constructor; [exact Hkv | constructor].
  - destruct (Date.eqb k0 k) eqn:E.
    + apply DateFacts.eqb_eq in E. subst k0. constructor; assumption.
    + constructor; assumption.
Qed.

Lemma get_In (m : Dict.t) (k : date) (v : row) :
  NoDup (Dict.keys m) -> In (k, v) m -> Dict.get m k = Ok v.
Proof.
  induction m as [|[k0 v0] m IH]; simpl; intros Hnd Hin; [contradiction|].
  inversion Hnd as [|? ? Hnin Hm]; subst.
  destruct Hin as [Heq|Hin].
  - injection Heq as -> ->. rewrite DateFacts.eqb_refl. reflexivity.
  - destruct (Date.eqb k0 k) eqn:E.
    + apply DateFacts.eqb_eq in E. subst k0. exfalso. apply Hnin.
      apply (in_map fst) in Hin. exact Hin.
    + apply IH; assumption.
Qed.

Lemma get_Ok (m : Dict.t) (k : date) (v : row) :
  Dict.get m k = Ok v -> In (k, v) m.
Proof.
  induction m as [|[k0 v0] m IH]; simpl; intros H; [discriminate|].
  destruct (Date.eqb k0 k) eqn:E.
  - apply DateFacts.eqb_eq in E. subst k0. injection H as ->. left; reflexivity.
  - right. apply IH, H.
Qed.

Lemma get_Raise (m : Dict.t) (k : date) (x : exn) :
  Dict.get m k = Raise x -> x = KeyError /\ ~ In k (Dict.keys m).
Proof.
  induction m as [|[k0 v0] m IH]; simpl; intros H.
  - injection H as <-. split; [reflexivity | intros []].
  - destruct (Date.eqb k0 k) eqn:E; [discriminate|].
    destruct (IH H) as [-> Hnin]. split; [reflexivity|].
    intros [->|Hin]; [|contradiction].
    rewrite DateFacts.eqb_refl in E. discriminate.
Qed.

End DictFacts.

(** ** The two loops *)

Section LoopFacts.

Variable fromisoformat : string -> option date.
Variables (header : row) (di : nat) (cutoff : date).

Local Abbreviation date_at := (date_at fromisoformat).
Local Abbreviation key := (key fromisoformat).
Local Abbreviation has_date := (has_date fromisoformat).
Local Abbreviation usable := (usable fromisoformat header di).
Local Abbreviation usableb := (usableb fromisoformat header di).
Local Abbreviation last_usable := (last_usable fromisoformat header di).
Local Abbreviation index_new := (index_new fromisoformat header di cutoff).
Local Abbreviation keep_old := (keep_old fromisoformat header di cutoff).
Local Abbreviation entry_ok := (entry_ok fromisoformat header di cutoff).
Local Abbreviation clean := (clean fromisoformat header di).

Lemma parse_date_Raise (s : string) (x : exn) :
  parse_date fromisoformat s = Raise x -> x = ValueError.
Proof.
  unfold parse_date. destruct (Str.is_empty (Str.strip s)); [discriminate|].
  destruct (fromisoformat _); [discriminate|]. congruence.
Qed.

Lemma date_at_Raise (r : row) (x : exn) :
  date_at di r = Raise x -> x = ValueError \/ x = IndexError.
Proof.
  unfold date_at, getitem. destruct (nth_error r di); simpl.
  - intros H. left. eapply parse_date_Raise, H.
  - intros H. right. congruence.
Qed.

Lemma key_date (r : row) (d : date) : date_at di r = Ok (Some d) -> key di r = d.
Proof. unfold key. intros ->. reflexivity. Qed.

Lemma has_date_keyed (r : row) (d d' : date) :
  date_at di r = Ok (Some d') -> has_date di d r = keyed (key di) d r.
Proof.
  intros H. unfold keyed. erewrite key_date by exact H.
  unfold has_date. rewrite H. reflexivity.
Qed.

Lemma has_date_true (r : row) (d : date) :
  has_date di d r = true <-> date_at di r = Ok (Some d).
Proof.
  unfold has_date. destruct (date_at di r) as [[d'|]|x].
  - rewrite DateFacts.eqb_eq. split; congruence.
  - split; discriminate.
  - split; discriminate.
Qed.

Lemma usableb_spec (r : row) (d : date) : usableb d r = true <-> usable r d.
Proof.
  unfold usableb, usable.
  rewrite andb_true_iff, Nat.eqb_eq, has_date_true. reflexivity.
Qed.

Lemma filter_has_date_keyed (d : date) (l : list row) :
  Forall (fun r => exists d', date_at di r = Ok (Some d')) l ->
  filter (has_date di d) l = filter (keyed (key di) d) l.
Proof.
  intros H. apply filter_ext_in. intros r Hr.
  rewrite Forall_forall in H. destruct (H r Hr) as [d' Hd'].
  eapply has_date_keyed, Hd'.
Qed.

(** *** The loop over NEW *)

Lemma index_new_inv (rows : list row) : forall acc nr,
  index_new rows acc = Ok nr ->
  NoDup (Dict.keys acc) -> Forall entry_ok acc ->
  NoDup (Dict.keys nr) /\ Forall entry_ok nr.
Proof.
  induction rows as [|r rest IH]; simpl; intros acc nr H Hnd Hall.
  - injection H as <-. split; assumption.
  - destruct (List.length r =? List.length header)%nat eqn:El; simpl in H;
      [|eapply IH; eassumption].
    destruct (date_at di r) as [[d|]|x] eqn:Ed; simpl in H;
      [|eapply IH; eassumption|discriminate].
    destruct (Date.geb d cutoff) eqn:Eg; [|eapply IH; eassumption].
    eapply IH; [exact H | apply DictFacts.NoDup_set, Hnd|].
    apply DictFacts.Forall_set; [|exact Hall].
    split; [split|]; simpl; [apply Nat.eqb_eq, El | exact Ed | exact Eg].
Qed.

Lemma last_usable_None (d : date) (rows : list row) :
  last_usable d rows = None <-> forall r, In r rows -> ~ usable r d.
Proof.
  induction rows as [|r rest IH]; simpl.
  - split; [intros _ r [] | reflexivity].
  - destruct (last_usable d rest) as [r'|].
    + split; [discriminate|]. intros H. exfalso.
      destruct IH as [_ IH].
      assert (E : Some r' = None)
        by (apply IH; intros r0 H0; apply H; right; exact H0).
      discriminate.
    + destruct (usableb d r) eqn:E.
      * split; [discriminate|]. intros H. exfalso.
        apply (H r (or_introl eq_refl)). apply usableb_spec, E.
      * split; [|reflexivity]. intros _ r0 [<-|H0] Hu.
        -- apply usableb_spec in Hu. congruence.
        -- destruct IH as [IH _]. exact (IH eq_refl r0 H0 Hu).
Qed.

(** [last_usable] is the row after which no usable row has the date. *)
Lemma last_usable_split (d : date) (l1 l2 : list row) (r : row) :
  usable r d -> (forall r', In r' l2 -> ~ usable r' d) ->
  last_usable d (l1 ++ r :: l2) = Some r.
Proof.
  intros Hu Hl2. induction l1 as [|r0 l1 IH]; simpl.
  - apply last_usable_None in Hl2. rewrite Hl2.
    apply usableb_spec in Hu. rewrite Hu. reflexivity.
  - rewrite IH. reflexivity.
Qed.

Lemma last_usable_Some (d : date) (rows : list row) (r : row) :
  last_usable d rows = Some r ->
  exists l1 l2, rows = l1 ++ r :: l2 /\ usable r d
                /\ forall r', In r' l2 -> ~ usable r' d.
Proof.
  induction rows as [|r0 rest IH]; simpl; [discriminate|].
  destruct (last_usable d rest) as [r'|] eqn:E.
  - intros H. injection H as ->.
    destruct (IH eq_refl) as (l1 & l2 & -> & Hu & Hl2).
    exists (r0 :: l1), l2. split; [reflexivity | split; assumption].
  - destruct (usableb d r0) eqn:Eu; [|discriminate].
    intros H. injection H as ->.
    exists [], rest. split; [reflexivity|].
    split; [apply usableb_spec, Eu | apply last_usable_None, E].
Qed.

(** The dictionary holds, for each date of the recent window, the last usable
    row of NEW with that date. *)
Lemma index_new_get (d : date) (rows : list row) : forall acc nr,
  index_new rows acc = Ok nr -> Date.geb d cutoff = true ->
  Dict.get nr d = match last_usable d rows with
                  | Some r => Ok r
                  | None => Dict.get acc d
                  end.
Proof.
  induction rows as [|r rest IH]; simpl; intros acc nr H Hd.
  - injection H as <-. reflexivity.
  - unfold usableb, has_date.
    destruct (List.length r =? List.length header)%nat eqn:El; simpl in H |- *.
    2:{ rewrite (IH _ _ H Hd). destruct (last_usable d rest); reflexivity. }
    destruct (date_at di r) as [[d'|]|x] eqn:Ed; simpl in H; [| |discriminate].
    2:{ rewrite (IH _ _ H Hd). destruct (last_usable d rest); reflexivity. }
    destruct (Date.geb d' cutoff) eqn:Eg.
    + rewrite (IH _ _ H Hd). destruct (last_usable d rest); [reflexivity|].
      rewrite DictFacts.get_set. destruct (Date.eqb d' d); reflexivity.
    + rewrite (IH _ _ H Hd). destruct (last_usable d rest); [reflexivity|].
      destruct (Date.eqb d' d) eqn:E; [|reflexivity].
      apply DateFacts.eqb_eq in E. congruence.
Qed.

Lemma index_new_Ok_clean (rows : list row) : forall acc nr,
  index_new rows acc = Ok nr -> clean rows.
Proof.
  induction rows as [|r rest IH]; simpl; intros acc nr H r0 Hin Hl Hr0;
    [contradiction|].
  destruct Hin as [<-|Hin].
  - apply Nat.eqb_eq in Hl. rewrite Hl in H. simpl in H.
    rewrite Hr0 in H. discriminate.
  - destruct (List.length r =? List.length header)%nat; simpl in H;
      [|exact (IH _ _ H r0 Hin Hl Hr0)].
    destruct (date_at di r) as [[d|]|x]; simpl in H; [| |discriminate].
    + destruct (Date.geb d cutoff); exact (IH _ _ H r0 Hin Hl Hr0).
    + exact (IH _ _ H r0 Hin Hl Hr0).
Qed.

Lemma index_new_clean (rows : list row) : forall acc,
  (di < List.length header)%nat -> clean rows ->
  exists nr, index_new rows acc = Ok nr.
Proof.
  intros acc Hdi. revert acc.
  induction rows as [|r rest IH]; simpl; intros acc Hc.
  - eexists; reflexivity.
  - assert (Hrest : clean rest) by (intros r0 H0; apply Hc; right; exact H0).
    destruct (List.length r =? List.length header)%nat eqn:El; simpl;
      [|apply IH, Hrest].
    apply Nat.eqb_eq in El.
    destruct (date_at di r) as [[d|]|x] eqn:Ed; simpl.
    + destruct (Date.geb d cutoff); apply IH, Hrest.
    + apply IH, Hrest.
    + exfalso. pose proof Ed as Ex. apply date_at_Raise in Ex.
      destruct Ex as [->| ->].
      * exact (Hc r (or_introl eq_refl) El Ed).
      * unfold date_at in Ed.
        destruct (getitem_lt _ r di) as [s Hs]; [lia|].
        rewrite Hs in Ed. simpl in Ed. apply parse_date_Raise in Ed.
        discriminate.
Qed.

Lemma index_new_Raise (rows : list row) : forall acc x,
  (di < List.length header)%nat ->
  index_new rows acc = Raise x -> x = ValueError /\ ~ clean rows.
Proof.
  intros acc x Hdi. revert acc.
  induction rows as [|r rest IH]; simpl; intros acc H; [discriminate|].
  assert (Hrest : forall acc',
             index_new rest acc' = Raise x -> x = ValueError /\ ~ clean (r :: rest)).
  { intros acc' H'. destruct (IH _ H') as [-> Hn]. split; [reflexivity|].
    intros Hc. apply Hn. intros r0 H0. apply Hc. right. exact H0. }
  destruct (List.length r =? List.length header)%nat eqn:El; simpl in H;
    [|eapply Hrest, H].
  apply Nat.eqb_eq in El.
  destruct (date_at di r) as [[d|]|x'] eqn:Ed; simpl in H.
  - destruct (Date.geb d cutoff); eapply Hrest, H.
  - eapply Hrest, H.
  - injection H as ->.
    assert (Hx : x = ValueError).
    { pose proof Ed as Ex. apply date_at_Raise in Ex.
      destruct Ex as [->| ->]; [reflexivity|].
      unfold date_at in Ed.
      destruct (getitem_lt _ r di) as [s Hs]; [lia|].
      rewrite Hs in Ed. simpl in Ed. apply parse_date_Raise in Ed.
      discriminate. }
    subst x. split; [reflexivity|].
    intros Hc. exact (Hc r (or_introl eq_refl) El Ed).
Qed.

(** *** The loop over OLD *)

(** The loop keeps, in their order and with their repetitions, the rows that
    are usable and dated before the cutoff. *)
Lemma keep_old_filter (old_body : list row) :
  keep_old old_body =
  filter (fun r => (List.length r =? List.length header)%nat
                   && match date_at di r with
                      | Ok (Some d) => Date.ltb d cutoff
                      | _ => false
                      end) old_body.
Proof.
  induction old_body as [|r rest IH]; simpl; [reflexivity|].
  destruct (List.length r =? List.length header)%nat; simpl; [|exact IH].
  destruct (date_at di r) as [[d|]|x]; [|exact IH|exact IH].
  destruct (Date.ltb d cutoff); [f_equal|]; exact IH.
Qed.

Lemma keep_old_In (old_body : list row) (r : row) :
  In r (keep_old old_body) <->
  In r old_body /\ exists d, usable r d /\ Date.ltb d cutoff = true.
Proof.
  rewrite keep_old_filter, filter_In, andb_true_iff, Nat.eqb_eq.
  unfold usable. split.
  - intros (Hin & Hl & Hd). split; [exact Hin|].
    destruct (date_at di r) as [[d|]|x]; try discriminate.
    exists d. auto.
  - intros (Hin & d & (Hl & Hd) & Hlt). rewrite Hd. auto.
Qed.

Lemma keep_old_dated (old_body : list row) :
  Forall (fun r => exists d, date_at di r = Ok (Some d)) (keep_old old_body).
Proof.
  apply Forall_forall. intros r Hr. apply keep_old_In in Hr.
  destruct Hr as (_ & d & (_ & Hd) & _). exists d. exact Hd.
Qed.

Lemma keep_old_not_recent (old_body : list row) (d : date) :
  Date.geb d cutoff = true -> filter (has_date di d) (keep_old old_body) = [].
Proof.
  intros Hd.
  destruct (filter (has_date di d) (keep_old old_body)) as [|r t] eqn:E;
    [reflexivity|].
  assert (Hin : In r (filter (has_date di d) (keep_old old_body)))
    by (rewrite E; left; reflexivity).
  apply filter_In in Hin. destruct Hin as [Hin Hr].
  apply has_date_true in Hr. apply keep_old_In in Hin.
  destruct Hin as (_ & d' & (_ & Hd') & Hlt).
  rewrite Hr in Hd'. injection Hd' as <-.
  rewrite DateFacts.geb_ltb, Hlt in Hd. discriminate.
Qed.

(** *** The recent window *)

Lemma get_perm (l l' : Dict.t) (d : date) :
  Permutation l l' -> NoDup (Dict.keys l) -> Dict.get l' d = Dict.get l d.
Proof.
  intros Hp Hnd.
  assert (Hnd' : NoDup (Dict.keys l')).
  { eapply Permutation_NoDup; [|exact Hnd]. apply Permutation_map, Hp. }
  destruct (Dict.get l d) as [r|x] eqn:E.
  - apply DictFacts.get_In; [exact Hnd'|].
    eapply Permutation_in; [exact Hp|]. apply DictFacts.get_Ok, E.
  - apply DictFacts.get_Raise in E. destruct E as [-> Hnin].
    destruct (Dict.get l' d) as [r|x] eqn:E'.
    + exfalso. apply Hnin. apply DictFacts.get_Ok in E'.
      apply Permutation_sym in Hp.
      apply (Permutation_in _ Hp) in E'.
      apply (in_map fst) in E'. exact E'.
    + apply DictFacts.get_Raise in E'. destruct E' as [-> _]. reflexivity.
Qed.

Lemma dated_entries (d : date) (l : Dict.t) :
  NoDup (Dict.keys l) ->
  Forall (fun p => date_at di (snd p) = Ok (Some (fst p))) l ->
  filter (has_date di d) (map snd l) =
  match Dict.get l d with
  | Ok r => [r]
  | Raise _ => []
  end.
Proof.
  induction l as [|[k v] l IH]; simpl; intros Hnd Hall; [reflexivity|].
  inversion Hnd as [|? ? Hnin Hl]; subst.
  inversion Hall as [|? ? Hkv Hall']; subst. simpl in Hkv.
  unfold has_date at 1. rewrite Hkv.
  specialize (IH Hl Hall').
  destruct (Date.eqb k d) eqn:E; [|exact IH].
  apply DateFacts.eqb_eq in E. subst k. rewrite IH.
  destruct (Dict.get l d) as [r|x] eqn:Eg; [|reflexivity].
  exfalso. apply Hnin. apply DictFacts.get_Ok in Eg.
  apply (in_map fst) in Eg. exact Eg.
Qed.

Section Recent.

Variable nr : Dict.t.
Hypothesis Hnd : NoDup (Dict.keys nr).
Hypothesis Hall : Forall entry_ok nr.

Lemma recent_entries :
  Forall (fun p => date_at di (snd p) = Ok (Some (fst p))) (sorted fst nr).
Proof.
  apply Forall_forall. intros p Hp. apply sorted_In in Hp.
  rewrite Forall_forall in Hall. destruct (Hall p Hp) as [[_ H] _]. exact H.
Qed.

Lemma recent_NoDup : NoDup (Dict.keys (sorted fst nr)).
Proof.
  eapply Permutation_NoDup; [|exact Hnd].
  apply Permutation_map, Permutation_sym, sorted_perm.
Qed.

(** Looking up the sorted keys never fails and yields [recent]. *)
Lemma recent_ok :
  mapM (Dict.get nr) (sorted (fun d => d) (Dict.keys nr)) = Ok (recent nr).
Proof.
  unfold Dict.keys, recent. rewrite (sorted_map _ _ fst (fun d => d)).
  change (fun a : date * row => fst a) with (@fst date row).
  generalize (fun p => proj1 (sorted_In _ (@fst date row) nr p)).
  generalize (sorted fst nr) as l.
  induction l as [|[k v] l IH]; simpl; intros H; [reflexivity|].
  rewrite (DictFacts.get_In nr k v Hnd) by (apply H; left; reflexivity).
  simpl. rewrite IH by (intros p Hp; apply H; right; exact Hp). reflexivity.
Qed.

Lemma recent_dated :
  Forall (fun r => exists d, date_at di r = Ok (Some d)) (recent nr).
Proof.
  unfold recent. apply Forall_forall. intros r Hr.
  apply in_map_iff in Hr. destruct Hr as ([k v] & <- & Hp).
  pose proof recent_entries as H. rewrite Forall_forall in H.
  exists k. exact (H _ Hp).
Qed.

Lemma recent_In (r : row) :
  In r (recent nr) <-> exists d, In (d, r) nr.
Proof.
  unfold recent. rewrite in_map_iff. split.
  - intros ([k v] & <- & Hp). exists k. apply sorted_In in Hp. exact Hp.
  - intros (d & Hp). exists (d, r). split; [reflexivity|].
    apply sorted_In. exact Hp.
Qed.

(** One row at most for each date, the one the dictionary holds. *)
Lemma recent_has_date (d : date) :
  filter (has_date di d) (recent nr) =
  match Dict.get nr d with
  | Ok r => [r]
  | Raise _ => []
  end.
Proof.
  unfold recent. rewrite (dated_entries d _ recent_NoDup recent_entries).
  rewrite (get_perm nr (sorted fst nr) d); [reflexivity| |exact Hnd].
  apply Permutation_sym, sorted_perm.
Qed.

End Recent.

End LoopFacts.

(** ** From the cutoff to the written table *)

Section MergeFacts.

Variable fromisoformat : string -> option date.
Variables (header : row) (di : nat) (cutoff : date).

Local Abbreviation date_at := (date_at fromisoformat).
Local Abbreviation key := (key fromisoformat).
Local Abbreviation index_new := (index_new fromisoformat header di cutoff).
Local Abbreviation keep_old := (keep_old fromisoformat header di cutoff).
Local Abbreviation clean := (clean fromisoformat header di).
Local Abbreviation merge := (merge fromisoformat header di cutoff).

(** On rows that all carry a date the final sort cannot fail. *)
Lemma sorted_by_date_ok (body : list row) :
  Forall (fun r => exists d, date_at di r = Ok (Some d)) body ->
  sorted_by_date fromisoformat di body = Ok (sorted (key di) body).
Proof.
  intros H. unfold sorted_by_date.
  rewrite (mapM_ok _ _ _ (fun r => (Some (key di r), r))).
  2:{ intros r Hr. rewrite Forall_forall in H. destruct (H r Hr) as [d Hd].
      unfold key. rewrite Hd. reflexivity. }
  simpl.
  assert (E : all_dates (map (fun r => (Some (key di r), r)) body)
              = Some (map (fun r => (key di r, r)) body)).
  { clear H. induction body as [|r body IH]; simpl; [reflexivity|].
    rewrite IH. reflexivity. }
  rewrite E. rewrite (sorted_map _ _ (fun r => (key di r, r)) fst).
  rewrite map_map. simpl. rewrite map_id. reflexivity.
Qed.

Lemma merge_ok (new_body old_body : list row) (nr : Dict.t) :
  index_new new_body [] = Ok nr ->
  merge new_body old_body
  = Ok (header :: sorted (key di) (keep_old old_body ++ recent nr)).
Proof.
  intros H. unfold merge. rewrite H. simpl.
  destruct (index_new_inv fromisoformat header di cutoff new_body [] nr H
              (NoDup_nil _) (Forall_nil _)) as [Hnd Hall].
  rewrite recent_ok by exact Hnd. simpl.
  rewrite sorted_by_date_ok; [reflexivity|].
  apply Forall_app. split.
  - apply keep_old_dated.
  - eapply recent_dated; eassumption.
Qed.

(** The merge fails in one way only: a row of NEW with the header's number
    of fields and a date that does not parse. *)
Lemma merge_Raise (new_body old_body : list row) (x : exn) :
  (di < List.length header)%nat ->
  merge new_body old_body = Raise x -> x = ValueError /\ ~ clean new_body.
Proof.
  intros Hdi H.
  destruct (index_new new_body []) as [nr|x'] eqn:E.
  - rewrite (merge_ok _ _ _ E) in H. discriminate.
  - unfold merge in H. rewrite E in H. simpl in H. injection H as <-.
    eapply index_new_Raise; eassumption.
Qed.

Lemma merge_clean (new_body old_body : list row) :
  (di < List.length header)%nat -> clean new_body ->
  exists nr, index_new new_body [] = Ok nr /\
             merge new_body old_body
             = Ok (header :: sorted (key di) (keep_old old_body ++ recent nr)).
Proof.
  intros Hdi Hc.
  destruct (index_new_clean fromisoformat header di cutoff new_body [] Hdi Hc)
    as [nr Hnr].
  exists nr. split; [exact Hnr | apply merge_ok, Hnr].
Qed.

End MergeFacts.

(** ** Runs of the script *)

Section RunFacts.

Variable fromisoformat : string -> option date.
Variables (a : args) (w : world).

Local Abbreviation run := (run fromisoformat).
Local Abbreviation merge := (merge fromisoformat).
Local Abbreviation key := (key fromisoformat).
Local Abbreviation keep_old := (keep_old fromisoformat).
Local Abbreviation index_new := (index_new fromisoformat).
Local Abbreviation clean := (clean fromisoformat).
Local Abbreviation loaded := (loaded a w).

Lemma old_given_Some (p : string) :
  old_given a w = Some p ->
  arg_old a = Some p /\ exists f, fs w p = Some f /\ (0 < f_size f)%Z.
Proof.
  unfold old_given. destruct (arg_old a) as [q|]; [|discriminate].
  destruct (Str.is_empty q); [discriminate|].
  destruct (fs w q) as [f|] eqn:E; [|discriminate].
  destruct (0 <? f_size f)%Z eqn:Es; [|discriminate].
  intros H. injection H as ->. split; [reflexivity|].
  exists f. split; [exact E | apply Z.ltb_lt, Es].
Qed.

(** Reading OLD never stops the run; it prints at most the warning. *)
Lemma load_old_eq (header : row) (e : effects) :
  load_old no_fault a w header e
  = (mkeff (stderr e ++ warnings_of a w header) (written e),
     Next (old_rows_of a w header)).
Proof.
  unfold warnings_of, old_rows_of, load_old.
  destruct (old_given a w) as [p|] eqn:Eg.
  - destruct (old_given_Some _ Eg) as (_ & f & Ef & _).
    unfold bind, lift, open_csv, no_fault, read_csv. rewrite Ef.
    destruct (f_rows f) as [|oh ob]; simpl.
    + destruct (list_eq_dec string_dec header header); [|contradiction].
      simpl. rewrite app_nil_r. destruct e; reflexivity.
    + destruct (list_eq_dec string_dec oh header); simpl.
      * rewrite app_nil_r. destruct e; reflexivity.
      * reflexivity.
  - simpl. rewrite app_nil_r. destruct e; reflexivity.
Qed.

Lemma warnings_of_cases (header : row) :
  warnings_of a w header = [] \/ warnings_of a w header = [WARNING].
Proof.
  unfold warnings_of, load_old.
  destruct (old_given a w) as [p|] eqn:Eg; [|left; reflexivity].
  destruct (old_given_Some _ Eg) as (_ & f & Ef & _).
  unfold bind, lift, open_csv, no_fault, read_csv. rewrite Ef.
  destruct (f_rows f) as [|oh ob]; simpl.
  - destruct (list_eq_dec string_dec header header); [|contradiction].
    left; reflexivity.
  - destruct (list_eq_dec string_dec oh header); [left | right]; reflexivity.
Qed.

Lemma run_unreadable :
  fs w (arg_new a) = None ->
  run a w = (mkeff [] [], Halt (Uncaught FileNotFoundError)).
Proof.
  intros H. unfold run, process, main, bind, lift, open_csv, no_fault, read_csv.
  simpl.
  rewrite H. reflexivity.
Qed.

Lemma run_empty :
  read_csv w (arg_new a) = Ok [] ->
  run a w = (mkeff ["ERROR: new CSV is empty"%string] [], Halt (SysExit 2)).
Proof.
  intros H. unfold run, process, main, bind, lift, open_csv, no_fault. simpl.
  rewrite H. reflexivity.
Qed.

Lemma run_no_column (header : row) (new_body : list row) :
  read_csv w (arg_new a) = Ok (header :: new_body) ->
  index (date_col a) header = None ->
  run a w
  = (mkeff [("ERROR: date column '" ++ date_col a
             ++ "' not found in NEW header")%string] [],
     Halt (SysExit 2)).
Proof.
  intros H Hi. unfold run, process, main, bind, lift, open_csv, no_fault.
  simpl. rewrite H, Hi. reflexivity.
Qed.

Lemma run_checked (header : row) (new_body : list row) (di : nat) :
  read_csv w (arg_new a) = Ok (header :: new_body) ->
  index (date_col a) header = Some di ->
  run a w
  = match Date.sub_days (today w) (keep_days a) with
    | Raise x => (mkeff (warnings_of a w header) [], Halt (Uncaught x))
    | Ok cutoff =>
        match merge header di cutoff new_body (tl (old_rows_of a w header)) with
        | Raise x => (mkeff (warnings_of a w header) [], Halt (Uncaught x))
        | Ok table =>
            (mkeff (warnings_of a w header) [(arg_out a, table)], Next tt)
        end
    end.
Proof.
  intros H Hi. unfold run, process, main, open_csv, no_fault.
  unfold bind at 1. simpl. unfold bind at 1. unfold lift at 1.
  rewrite H, Hi. unfold bind at 1. rewrite load_old_eq. simpl.
  unfold bind, lift.
  destruct (Date.sub_days (today w) (keep_days a)) as [cutoff|x];
    [|reflexivity].
  destruct (merge header di cutoff new_body _) as [table|x]; reflexivity.
Qed.

(** A run on rows of NEW that all parse ends well. *)
Lemma run_loaded_clean (header : row) (new_body old_body : list row)
      (di : nat) (cutoff : date) :
  loaded header new_body old_body di cutoff ->
  clean header di new_body ->
  exists nr,
    index_new header di cutoff new_body [] = Ok nr /\
    run a w
    = (mkeff (warnings_of a w header)
             [(arg_out a,
               header :: sorted (key di)
                           (keep_old header di cutoff old_body ++ recent nr))],
       Next tt).
Proof.
  intros (Hn & Hi & -> & Hc) Hcl.
  destruct (index_Some _ _ _ Hi) as [Hdi _].
  destruct (merge_clean fromisoformat header di cutoff new_body
              (tl (old_rows_of a w header)) Hdi Hcl) as (nr & Hnr & Hm).
  exists nr. split; [exact Hnr|].
  rewrite (run_checked _ _ _ Hn Hi), Hc, Hm. reflexivity.
Qed.

(** A run that ends well has got past the checks and merged. *)
Lemma run_Next_inv (e : effects) :
  run a w = (e, Next tt) ->
  exists header new_body old_body di cutoff nr,
    loaded header new_body old_body di cutoff /\
    index_new header di cutoff new_body [] = Ok nr /\
    e = mkeff (warnings_of a w header)
              [(arg_out a,
                header :: sorted (key di)
                            (keep_old header di cutoff old_body ++ recent nr))].
Proof.
  intros H.
  destruct (fs w (arg_new a)) as [f|] eqn:Ef;
    [|rewrite (run_unreadable Ef) in H; discriminate].
  assert (Hr : read_csv w (arg_new a) = Ok (f_rows f))
    by (unfold read_csv; rewrite Ef; reflexivity).
  destruct (f_rows f) as [|header new_body];
    [rewrite (run_empty Hr) in H; discriminate|].
  destruct (index (date_col a) header) as [di|] eqn:Ei;
    [|rewrite (run_no_column _ _ Hr Ei) in H; discriminate].
  rewrite (run_checked _ _ _ Hr Ei) in H.
  destruct (Date.sub_days (today w) (keep_days a)) as [cutoff|x] eqn:Ec;
    [|discriminate].
  destruct (index_new header di cutoff new_body []) as [nr|x] eqn:En.
  - rewrite (merge_ok fromisoformat _ _ _ _ _ _ En) in H. injection H as <-.
    exists header, new_body, (tl (old_rows_of a w header)), di, cutoff, nr.
    split; [repeat split; assumption|]. split; [exact En | reflexivity].
  - unfold merge in H. rewrite En in H. discriminate.
Qed.

Lemma loaded_fun (header header' : row) (new_body new_body' : list row)
      (old_body old_body' : list row) (di di' : nat) (cutoff cutoff' : date) :
  loaded header new_body old_body di cutoff ->
  loaded header' new_body' old_body' di' cutoff' ->
  header' = header /\ new_body' = new_body /\ old_body' = old_body
  /\ di' = di /\ cutoff' = cutoff.
Proof.
  intros (Hn & Hi & Ho & Hc) (Hn' & Hi' & Ho' & Hc').
  rewrite Hn in Hn'. injection Hn' as <- <-.
  rewrite Hi in Hi'. injection Hi' as <-.
  rewrite Hc in Hc'. injection Hc' as <-.
  subst. repeat split; reflexivity.
Qed.

Lemma run_loaded_Next (header : row) (new_body old_body : list row)
      (di : nat) (cutoff : date) (e : effects) :
  loaded header new_body old_body di cutoff ->
  run a w = (e, Next tt) ->
  exists nr,
    index_new header di cutoff new_body [] = Ok nr /\
    e = mkeff (warnings_of a w header)
              [(arg_out a,
                header :: sorted (key di)
                            (keep_old header di cutoff old_body ++ recent nr))].
Proof.
  intros Hl H.
  destruct (run_Next_inv e H) as (h & nb & ob & i & c & nr & Hl' & Hnr & ->).
  destruct (loaded_fun _ _ _ _ _ _ _ _ _ _ Hl Hl')
    as (-> & -> & -> & -> & ->).
  exists nr. split; [exact Hnr | reflexivity].
Qed.


(** A run on a row of NEW whose date does not parse ends in the exception. *)
Lemma run_loaded_dirty (header : row) (new_body old_body : list row)
      (di : nat) (cutoff : date) :
  loaded header new_body old_body di cutoff ->
  ~ clean header di new_body ->
  run a w = (mkeff (warnings_of a w header) [], Halt (Uncaught ValueError)).
Proof.
  intros (Hn & Hi & -> & Hc) Hcl.
  destruct (index_Some _ _ _ Hi) as [Hdi _].
  rewrite (run_checked _ _ _ Hn Hi), Hc.
  destruct (merge header di cutoff new_body (tl (old_rows_of a w header)))
    as [table|x] eqn:Em.
  - exfalso. apply Hcl.
    destruct (index_new header di cutoff new_body []) as [nr|x] eqn:En.
    + eapply index_new_Ok_clean, En.
    + unfold merge in Em. rewrite En in Em. discriminate.
  - destruct (merge_Raise fromisoformat _ _ _ _ _ _ Hdi Em) as [-> _].
    reflexivity.
Qed.

End RunFacts.

(** ** The body that is written *)

Section OutputFacts.

Variable fromisoformat : string -> option date.
Variables (header : row) (di : nat) (cutoff : date).
Variables (new_body old_body : list row) (nr : Dict.t).

Local Abbreviation date_at := (date_at fromisoformat).
Local Abbreviation key := (key fromisoformat).
Local Abbreviation has_date := (has_date fromisoformat).
Local Abbreviation usable := (usable fromisoformat header di).
Local Abbreviation last_usable := (last_usable fromisoformat header di).
Local Abbreviation row_le := (row_le fromisoformat).
Local Abbreviation keep_old := (keep_old fromisoformat header di cutoff).

Hypothesis Hnr : index_new fromisoformat header di cutoff new_body [] = Ok nr.

Local Abbreviation merged_body := (keep_old old_body ++ recent nr).
Local Abbreviation body := (sorted (key di) merged_body).

Lemma new_recent_inv :
  NoDup (Dict.keys nr)
  /\ Forall (entry_ok fromisoformat header di cutoff) nr.
Proof.
  exact (index_new_inv fromisoformat header di cutoff new_body [] nr Hnr
           (NoDup_nil _) (Forall_nil _)).
Qed.

Lemma merged_dated :
  Forall (fun r => exists d, date_at di r = Ok (Some d)) merged_body.
Proof.
  destruct new_recent_inv as [Hnd Hall].
  apply Forall_app. split.
  - apply keep_old_dated.
  - eapply recent_dated; eassumption.
Qed.

Lemma body_dated :
  Forall (fun r => exists d, date_at di r = Ok (Some d)) body.
Proof.
  pose proof merged_dated as H. rewrite Forall_forall in H |- *.
  intros r Hr. apply H. apply sorted_In in Hr. exact Hr.
Qed.

Lemma dated_row_le (l : list row) :
  Forall (fun r => exists d, date_at di r = Ok (Some d)) l ->
  StronglySorted (key_le (key di)) l -> StronglySorted (row_le di) l.
Proof.
  intros Hd Hs. induction Hs as [|x l Hs IH Hx]; [constructor|].
  inversion Hd as [|? ? [dx Hdx] Hd']; subst.
  constructor; [apply IH, Hd'|].
  rewrite Forall_forall in Hx, Hd' |- *. intros y Hy.
  destruct (Hd' y Hy) as [dy Hdy]. specialize (Hx y Hy).
  unfold key_le in Hx.
  rewrite (key_date fromisoformat di x dx Hdx) in Hx.
  rewrite (key_date fromisoformat di y dy Hdy) in Hx.
  unfold row_le. rewrite Hdx, Hdy. exact Hx.
Qed.

Lemma body_sorted : StronglySorted (row_le di) body.
Proof. apply dated_row_le; [apply body_dated | apply sorted_sorted]. Qed.

Lemma body_stable (d : date) :
  filter (has_date di d) body = filter (has_date di d) merged_body.
Proof.
  rewrite (filter_has_date_keyed fromisoformat di d _ body_dated).
  rewrite (filter_has_date_keyed fromisoformat di d _ merged_dated).
  apply sorted_keyed.
Qed.

Lemma body_In (r : row) :
  In r body <-> In r (keep_old old_body) \/ In r (recent nr).
Proof. rewrite sorted_In, in_app_iff. reflexivity. Qed.

(** In the recent window the body holds, for each date, the last usable row
    of NEW and nothing else. *)
Lemma body_recent (d : date) :
  Date.geb d cutoff = true ->
  filter (has_date di d) body =
  match last_usable d new_body with
  | Some r => [r]
  | None => []
  end.
Proof.
  intros Hd. destruct new_recent_inv as [Hnd Hall].
  rewrite body_stable, filter_app.
  rewrite (keep_old_not_recent fromisoformat header di cutoff old_body d Hd).
  simpl.
  rewrite (recent_has_date fromisoformat header di cutoff nr Hnd Hall d).
  rewrite (index_new_get fromisoformat header di cutoff d new_body [] nr Hnr Hd).
  destruct (last_usable d new_body); reflexivity.
Qed.

Lemma body_lengths :
  Forall (fun r => List.length r = List.length header) body.
Proof.
  destruct new_recent_inv as [Hnd Hall].
  apply Forall_forall. intros r Hr. apply body_In in Hr.
  destruct Hr as [Hr|Hr].
  - apply keep_old_In in Hr. destruct Hr as (_ & d & [Hl _] & _). exact Hl.
  - apply recent_In in Hr. destruct Hr as [d Hr].
    rewrite Forall_forall in Hall. destruct (Hall _ Hr) as [[Hl _] _].
    exact Hl.
Qed.

End OutputFacts.

(** ** The process in any surroundings *)

Section ProcessFacts.

Variable fromisoformat : string -> option date.
Variables (io : faults) (a : args) (w : world).

Local Abbreviation process := (process fromisoformat).
Local Abbreviation run := (run fromisoformat).
Local Abbreviation merge := (merge fromisoformat).


Lemma process_unreadable (x : exn) :
  open_csv io w (arg_new a) = Raise x ->
  process io (Parsed a) w = (mkeff [] [], Halt (Uncaught x)).
Proof.
  intros H. unfold process, main, bind, lift. simpl. rewrite H. reflexivity.
Qed.

Lemma process_empty :
  open_csv io w (arg_new a) = Ok [] ->
  process io (Parsed a) w
  = (mkeff ["ERROR: new CSV is empty"%string] [], Halt (SysExit 2)).
Proof.
  intros H. unfold process, main, bind, lift. simpl. rewrite H. reflexivity.
Qed.

Lemma process_no_column (header : row) (new_body : list row) :
  open_csv io w (arg_new a) = Ok (header :: new_body) ->
  index (date_col a) header = None ->
  process io (Parsed a) w
  = (mkeff [("ERROR: date column '" ++ date_col a
             ++ "' not found in NEW header")%string] [],
     Halt (SysExit 2)).
Proof.
  intros H Hi. unfold process, main, bind, lift. simpl. rewrite H, Hi.
  reflexivity.
Qed.

(** Reading OLD: nothing to read, a failure of the reading, or the rows
    with the warning when the first of them is not the header. *)
Lemma load_old_cases (header : row) :
  load_old io a w header (mkeff [] [])
  = match old_given a w with
    | None => (mkeff [] [], Next [])
    | Some p =>
        match open_csv io w p with
        | Raise x => (mkeff [] [], Halt (Uncaught x))
        | Ok [] => (mkeff [] [], Next [header])
        | Ok (oh :: ob) =>
            (mkeff (if list_eq_dec string_dec oh header then [] else [WARNING])
                   [],
             Next (oh :: ob))
        end
    end.
Proof.
  unfold load_old. destruct (old_given a w) as [p|]; [|reflexivity].
  unfold bind, lift. destruct (open_csv io w p) as [[|oh ob]|x]; simpl.
  - destruct (list_eq_dec string_dec header header); [|contradiction].
    reflexivity.
  - destruct (list_eq_dec string_dec oh header); reflexivity.
  - reflexivity.
Qed.

Lemma process_checked (header : row) (new_body : list row) (di : nat) :
  open_csv io w (arg_new a) = Ok (header :: new_body) ->
  index (date_col a) header = Some di ->
  process io (Parsed a) w
  = match load_old io a w header (mkeff [] []) with
    | (e1, Halt h) => (e1, Halt h)
    | (e1, Next old_rows) =>
        match Date.sub_days (today w) (keep_days a) with
        | Raise x => (e1, Halt (Uncaught x))
        | Ok cutoff =>
            match merge header di cutoff new_body (tl old_rows) with
            | Raise x => (e1, Halt (Uncaught x))
            | Ok table =>
                (mkeff (stderr e1) (written e1 ++ [(arg_out a, table)]),
                 Next tt)
            end
        end
    end.
Proof.
  intros H Hi. unfold process, main.
  unfold bind at 1. simpl. unfold bind at 1. unfold lift at 1.
  rewrite H, Hi. unfold bind at 1.
  destruct (load_old io a w header (mkeff [] [])) as [e1 [old_rows|h]];
    [|reflexivity].
  unfold bind, lift.
  destruct (Date.sub_days (today w) (keep_days a)) as [cutoff|x];
    [|reflexivity].
  destruct (merge header di cutoff new_body (tl old_rows)); reflexivity.
Qed.


End ProcessFacts.




(** * The claims *)

(** ** Rows whose date does not parse *)

(** What the claim holds for OLD is true: a row of OLD whose date raises in
    [parse_date] is left out and the loop goes on. *)
Lemma old_unparsable_dropped (fromisoformat : string -> option date)
      (header : row) (di : nat) (cutoff : date) (r : row) (rest : list row)
      (x : exn) :
  date_at fromisoformat di r = Raise x ->
  keep_old fromisoformat header di cutoff (r :: rest)
  = keep_old fromisoformat header di cutoff rest.
Proof.
  intros H. simpl. rewrite H.
  destruct (List.length r =? List.length header)%nat; reflexivity.
Qed.

(** C1 (the code departs from the claim).  A row of NEW with the header's
    number of fields whose date field fails to parse is not discarded: the
    [ValueError] of [parse_date] is caught nowhere in the loop over NEW, the
    run ends in it and nothing is written. *)
Theorem unparsable_new_row_uncaught (fromisoformat : string -> option date)
        (a : args) (w : world) (header : row) (new_body old_body : list row)
        (di : nat) (cutoff : date) (r : row) :
  loaded a w header new_body old_body di cutoff ->
  In r new_body ->
  List.length r = List.length header ->
  date_at fromisoformat di r = Raise ValueError ->
  run fromisoformat a w
  = (mkeff (warnings_of a w header) [], Halt (Uncaught ValueError))
  /\ exit_status (snd (run fromisoformat a w)) = 1%Z.
Proof.
  intros Hl Hin Hlen Hr.
  assert (E : run fromisoformat a w
              = (mkeff (warnings_of a w header) [], Halt (Uncaught ValueError))).
  { eapply run_loaded_dirty; [exact Hl|].
    intros Hc. exact (Hc r Hin Hlen Hr). }
  split; [exact E | rewrite E; reflexivity].
Qed.

Lemma unparsable_new_row_uncaught_witness :
  loaded Scenario.a_new_only Scenario.w_garbage Scenario.header
         [["garbage"; "1"]%string] [] 0 (mkdate 2024 1 4)
  /\ In ["garbage"; "1"]%string [["garbage"; "1"]%string]
  /\ List.length ["garbage"; "1"]%string = List.length Scenario.header
  /\ date_at Date.fromisoformat_ymd 0 ["garbage"; "1"]%string = Raise ValueError
  /\ run Date.fromisoformat_ymd Scenario.a_new_only Scenario.w_garbage
     = (mkeff [] [], Halt (Uncaught ValueError)).
Proof.
  assert (Hl : loaded Scenario.a_new_only Scenario.w_garbage Scenario.header
                      [["garbage"; "1"]%string] [] 0 (mkdate 2024 1 4))
    by (repeat split; reflexivity).
  assert (Hin : In ["garbage"; "1"]%string [["garbage"; "1"]%string])
    by (left; reflexivity).
  split; [exact Hl|]. split; [exact Hin|].
  split; [reflexivity|]. split; [reflexivity|].
  exact (proj1 (unparsable_new_row_uncaught Date.fromisoformat_ymd
                  Scenario.a_new_only Scenario.w_garbage Scenario.header
                  [["garbage"; "1"]%string] [] 0 (mkdate 2024 1 4)
                  ["garbage"; "1"]%string Hl Hin eq_refl eq_refl)).
Defined.

(** ** The scenario of the specification *)

(** C2.  OLD holds 2024-01-01 to 2024-01-05 with the values 1 to 5, NEW holds
    2024-01-04 to 2024-01-06 with 40, 50 and 60, two days are kept and the
    run is on 2024-01-06: the cutoff is 2024-01-04 and the body written is
    01(1), 02(2), 03(3), 04(40), 05(50), 06(60), in this order. *)
Theorem scenario_output (a : args) (w : world) (p : string) (fo fn : file) :
  arg_old a = Some p -> p <> EmptyString ->
  fs w p = Some fo -> (0 < f_size fo)%Z -> f_rows fo = Scenario.old_table ->
  fs w (arg_new a) = Some fn -> f_rows fn = Scenario.new_table ->
  keep_days a = 2%Z -> date_col a = "Date"%string ->
  today w = mkdate 2024 1 6 ->
  Date.sub_days (today w) (keep_days a) = Ok (mkdate 2024 1 4)
  /\ run Date.fromisoformat_ymd a w
     = (mkeff [] [(arg_out a, Scenario.header :: Scenario.expected_body)],
        Next tt).
Proof.
  intros Ho Hp Hfo Hs Hro Hfn Hrn Hk Hc Ht.
  assert (Hcut : Date.sub_days (today w) (keep_days a) = Ok (mkdate 2024 1 4))
    by (rewrite Ht, Hk; reflexivity).
  split; [exact Hcut|].
  assert (Hg : old_given a w = Some p).
  { unfold old_given. rewrite Ho.
    destruct p as [|c p']; [contradiction|]. simpl. rewrite Hfo.
    apply Z.ltb_lt in Hs. rewrite Hs. reflexivity. }
  assert (Hload : forall e, load_old no_fault a w Scenario.header e
                            = (e, Next Scenario.old_table)).
  { intros e. unfold load_old. rewrite Hg. unfold bind, lift, open_csv, no_fault, read_csv.
    rewrite Hfo, Hro. destruct e; reflexivity. }
  assert (Hnew : read_csv w (arg_new a)
                 = Ok (Scenario.header :: tl Scenario.new_table))
    by (unfold read_csv; rewrite Hfn, Hrn; reflexivity).
  rewrite (run_checked Date.fromisoformat_ymd a w _ _ 0 Hnew)
    by (rewrite Hc; reflexivity).
  rewrite Hcut. unfold warnings_of, old_rows_of. rewrite Hload. reflexivity.
Qed.

Lemma scenario_output_witness :
  run Date.fromisoformat_ymd Scenario.a Scenario.w
  = (mkeff [] [("out.csv"%string, Scenario.header :: Scenario.expected_body)],
     Next tt).
Proof.
  refine (proj2 (scenario_output Scenario.a Scenario.w "old.csv"
                   (mkfile 76 Scenario.old_table)
                   (mkfile 53 Scenario.new_table)
                   eq_refl _ eq_refl eq_refl eq_refl eq_refl eq_refl
                   eq_refl eq_refl eq_refl)).
  discriminate.
Defined.

(** ** Which table a row comes from *)

(** C3.  On a run that ends well: for a date from the cutoff on with a
    usable row in both tables, the output holds exactly one row of that date,
    a usable row of NEW, the loop over OLD contributes none, and a row of OLD
    that differs from it is absent; for a date before the cutoff, every
    usable row of OLD with that date is in the output as it stands (whether
    or not NEW has the date). *)
Theorem recent_from_new_history_from_old
        (fromisoformat : string -> option date) (a : args) (w : world)
        (header : row) (new_body old_body : list row) (di : nat)
        (cutoff : date) (e : effects) :
  loaded a w header new_body old_body di cutoff ->
  run fromisoformat a w = (e, Next tt) ->
  exists body,
    written e = [(arg_out a, header :: body)]
    /\ (forall d rn ro,
           Date.geb d cutoff = true ->
           In rn new_body -> usable fromisoformat header di rn d ->
           In ro old_body -> usable fromisoformat header di ro d ->
           exists r,
             In r new_body /\ usable fromisoformat header di r d
             /\ filter (has_date fromisoformat di d) body = [r]
             /\ filter (has_date fromisoformat di d)
                       (keep_old fromisoformat header di cutoff old_body) = []
             /\ (ro <> r -> ~ In ro body))
    /\ (forall d ro,
           Date.ltb d cutoff = true ->
           In ro old_body -> usable fromisoformat header di ro d ->
           In ro body).
Proof.
  intros Hl Hrun.
  destruct (run_loaded_Next fromisoformat a w _ _ _ _ _ e Hl Hrun)
    as (nr & Hnr & ->).
  eexists. split; [reflexivity|]. split.
  - intros d rn ro Hd Hrn Hun Hro Huo.
    pose proof (body_recent fromisoformat header di cutoff new_body old_body
                  nr Hnr d Hd) as Hb.
    destruct (last_usable fromisoformat header di d new_body) as [r|] eqn:El.
    + destruct (last_usable_Some fromisoformat header di d new_body r El)
        as (l1 & l2 & Hsplit & Hur & _).
      exists r. split; [rewrite Hsplit; apply in_elt|].
      split; [exact Hur|]. split; [exact Hb|].
      split; [apply keep_old_not_recent, Hd|].
      intros Hne Hin.
      assert (Hin' : In ro [r]).
      { rewrite <- Hb. apply filter_In. split; [exact Hin|].
        apply has_date_true. exact (proj2 Huo). }
      destruct Hin' as [Heq|[]]. apply Hne. symmetry. exact Heq.
    + exfalso.
      pose proof (proj1 (last_usable_None fromisoformat header di d new_body) El)
        as Hnone.
      exact (Hnone rn Hrn Hun).
  - intros d ro Hd Hro Huo.
    apply body_In. left. apply keep_old_In. split; [exact Hro|].
    exists d. split; assumption.
Qed.

Lemma recent_from_new_history_from_old_witness :
  exists body,
    written (fst (run Date.fromisoformat_ymd Scenario.a Scenario.w))
    = [("out.csv"%string, Scenario.header :: body)]
    /\ filter (has_date Date.fromisoformat_ymd 0 (mkdate 2024 1 4)) body
       = [["2024-01-04"; "40"]%string]
    /\ In ["2024-01-01"; "1"]%string body.
Proof.
  assert (Hl : loaded Scenario.a Scenario.w Scenario.header
                      (tl Scenario.new_table) (tl Scenario.old_table)
                      0 (mkdate 2024 1 4))
    by (repeat split; reflexivity).
  destruct (recent_from_new_history_from_old Date.fromisoformat_ymd
              Scenario.a Scenario.w Scenario.header
              (tl Scenario.new_table) (tl Scenario.old_table) 0
              (mkdate 2024 1 4)
              (fst (run Date.fromisoformat_ymd Scenario.a Scenario.w))
              Hl eq_refl) as (body & Hw & Hrecent & Hhistory).
  exists body. split; [exact Hw|]. split.
  - destruct (Hrecent (mkdate 2024 1 4)
                ["2024-01-04"; "40"]%string ["2024-01-04"; "4"]%string
                eq_refl
                (or_introl eq_refl) (conj eq_refl eq_refl)
                (or_intror (or_intror (or_intror (or_introl eq_refl))))
                (conj eq_refl eq_refl))
      as (r & _ & _ & Hf & _).
    injection Hw as <-. rewrite Hf. cbv in Hf. injection Hf as <-.
    reflexivity.
  - exact (Hhistory (mkdate 2024 1 1) ["2024-01-01"; "1"]%string eq_refl
             (or_introl eq_refl) (conj eq_refl eq_refl)).
Defined.

(** ** The order of the output *)

(** C4.  On a run that ends well the rows of the output body are in
    non-decreasing order of their parsed dates, and the sort is stable: the
    rows of any one date stand as they stood in the merged body, the rows
    kept from OLD followed by the rows taken from NEW. *)
Theorem output_sorted_stable
        (fromisoformat : string -> option date) (a : args) (w : world)
        (header : row) (new_body old_body : list row) (di : nat)
        (cutoff : date) (e : effects) :
  loaded a w header new_body old_body di cutoff ->
  run fromisoformat a w = (e, Next tt) ->
  exists new_recent from_new body,
    index_new fromisoformat header di cutoff new_body [] = Ok new_recent
    /\ mapM (Dict.get new_recent)
            (sorted (fun d => d) (Dict.keys new_recent)) = Ok from_new
    /\ written e = [(arg_out a, header :: body)]
    /\ StronglySorted (row_le fromisoformat di) body
    /\ forall d,
         filter (has_date fromisoformat di d) body
         = filter (has_date fromisoformat di d)
                  (keep_old fromisoformat header di cutoff old_body ++ from_new).
Proof.
  intros Hl Hrun.
  destruct (run_loaded_Next fromisoformat a w _ _ _ _ _ e Hl Hrun)
    as (nr & Hnr & ->).
  destruct (new_recent_inv fromisoformat header di cutoff new_body nr Hnr)
    as [Hnd _].
  exists nr, (recent nr). eexists.
  split; [exact Hnr|]. split; [apply recent_ok, Hnd|].
  split; [reflexivity|]. split.
  - eapply body_sorted, Hnr.
  - intros d. eapply body_stable, Hnr.
Qed.

Lemma output_sorted_stable_witness :
  exists body,
    written (fst (run Date.fromisoformat_ymd Scenario.a Scenario.w))
    = [("out.csv"%string, Scenario.header :: body)]
    /\ StronglySorted (row_le Date.fromisoformat_ymd 0) body.
Proof.
  assert (Hl : loaded Scenario.a Scenario.w Scenario.header
                      (tl Scenario.new_table) (tl Scenario.old_table)
                      0 (mkdate 2024 1 4))
    by (repeat split; reflexivity).
  destruct (output_sorted_stable Date.fromisoformat_ymd
              Scenario.a Scenario.w Scenario.header
              (tl Scenario.new_table) (tl Scenario.old_table) 0
              (mkdate 2024 1 4)
              (fst (run Date.fromisoformat_ymd Scenario.a Scenario.w))
              Hl eq_refl) as (nr & rec & body & _ & _ & Hw & Hs & _).
  exists body. split; [exact Hw | exact Hs].
Defined.

(** ** One row for each date of the recent window *)

(** C5.  When the rows of NEW parse, the run ends well, and for each date
    from the cutoff on the output holds at most one row: the usable row of
    NEW with that date after which NEW has no other usable row of the date,
    and none when NEW has no usable row of the date.  Several rows of one
    date stop nothing. *)
Theorem new_rows_last_wins
        (fromisoformat : string -> option date) (a : args) (w : world)
        (header : row) (new_body old_body : list row) (di : nat)
        (cutoff : date) :
  loaded a w header new_body old_body di cutoff ->
  clean fromisoformat header di new_body ->
  exists e body,
    run fromisoformat a w = (e, Next tt)
    /\ written e = [(arg_out a, header :: body)]
    /\ forall d,
         Date.geb d cutoff = true ->
         (List.length (filter (has_date fromisoformat di d) body) <= 1)%nat
         /\ (forall l1 r l2,
                new_body = l1 ++ r :: l2 ->
                usable fromisoformat header di r d ->
                (forall r', In r' l2 -> ~ usable fromisoformat header di r' d) ->
                filter (has_date fromisoformat di d) body = [r])
         /\ ((forall r, In r new_body -> ~ usable fromisoformat header di r d) ->
             filter (has_date fromisoformat di d) body = []).
Proof.
  intros Hl Hc.
  destruct (run_loaded_clean fromisoformat a w _ _ _ _ _ Hl Hc)
    as (nr & Hnr & Hrun).
  eexists. eexists. split; [exact Hrun|]. split; [reflexivity|].
  intros d Hd.
  pose proof (body_recent fromisoformat header di cutoff new_body old_body
                nr Hnr d Hd) as Hb.
  split; [|split].
  - rewrite Hb.
    destruct (last_usable fromisoformat header di d new_body); simpl; lia.
  - intros l1 r l2 -> Hu Hl2. rewrite Hb.
    rewrite (last_usable_split fromisoformat header di d l1 l2 r Hu Hl2).
    reflexivity.
  - intros Hnone. rewrite Hb.
    apply last_usable_None in Hnone. rewrite Hnone. reflexivity.
Qed.

Lemma new_rows_last_wins_witness :
  exists e body,
    run Date.fromisoformat_ymd Scenario.a_new_only Scenario.w_twice
    = (e, Next tt)
    /\ written e = [("out.csv"%string, Scenario.header :: body)]
    /\ filter (has_date Date.fromisoformat_ymd 0 (mkdate 2024 1 5)) body
       = [["2024-01-05 17:30"; "51"]%string].
Proof.
  assert (Hl : loaded Scenario.a_new_only Scenario.w_twice Scenario.header
                      [["2024-01-05"; "50"]; ["2024-01-04"; "40"];
                       ["2024-01-05 17:30"; "51"]]%string
                      [] 0 (mkdate 2024 1 4))
    by (repeat split; reflexivity).
  assert (Hc : clean Date.fromisoformat_ymd Scenario.header 0
                     [["2024-01-05"; "50"]; ["2024-01-04"; "40"];
                      ["2024-01-05 17:30"; "51"]]%string).
  { intros r [<-|[<-|[<-|[]]]] _; cbv; discriminate. }
  destruct (new_rows_last_wins Date.fromisoformat_ymd
              Scenario.a_new_only Scenario.w_twice Scenario.header
              _ _ 0 (mkdate 2024 1 4) Hl Hc)
    as (e & body & Hrun & Hw & Hd).
  exists e, body. split; [exact Hrun|]. split; [exact Hw|].
  destruct (Hd (mkdate 2024 1 5) eq_refl) as (_ & Hlast & _).
  apply (Hlast [["2024-01-05"; "50"]; ["2024-01-04"; "40"]]%string
               ["2024-01-05 17:30"; "51"]%string []).
  - reflexivity.
  - split; reflexivity.
  - intros r' [].
Defined.

(** ** The shape of the output *)

(** C9.  On a run that ends well every row written after the header has as
    many fields as the header, which is the header of NEW. *)
Theorem output_rows_field_count
        (fromisoformat : string -> option date) (a : args) (w : world)
        (e : effects) (path : string) (table : list row) :
  run fromisoformat a w = (e, Next tt) ->
  In (path, table) (written e) ->
  exists header body new_body,
    table = header :: body
    /\ read_csv w (arg_new a) = Ok (header :: new_body)
    /\ Forall (fun r => List.length r = List.length header) body.
Proof.
  intros Hrun Hin.
  destruct (run_Next_inv fromisoformat a w e Hrun)
    as (header & new_body & old_body & di & cutoff & nr & Hl & Hnr & ->).
  simpl in Hin. destruct Hin as [Heq|[]]. injection Heq as <- <-.
  eexists. eexists. exists new_body.
  split; [reflexivity|]. split; [exact (proj1 Hl)|].
  eapply body_lengths, Hnr.
Qed.

Lemma output_rows_field_count_witness :
  exists header body new_body,
    Scenario.header :: Scenario.expected_body = header :: body
    /\ read_csv Scenario.w (arg_new Scenario.a) = Ok (header :: new_body)
    /\ Forall (fun r => List.length r = List.length header) body.
Proof.
  exact (output_rows_field_count Date.fromisoformat_ymd
           Scenario.a Scenario.w
           (fst (run Date.fromisoformat_ymd Scenario.a Scenario.w))
           "out.csv" (Scenario.header :: Scenario.expected_body)
           eq_refl (or_introl eq_refl)).
Defined.

(** ** The checks of NEW *)

(** C6.  With NEW opened: when it has no row at all, or when its header does
    not hold the name of the date column, the script prints its error, exits
    with status 2 and writes nothing; when it has its header only, with the
    date column in it, the run ends well and writes the header followed by
    the rows kept from OLD. *)
Theorem new_table_checks
        (fromisoformat : string -> option date) (a : args) (w : world)
        (f : file) :
  fs w (arg_new a) = Some f ->
  (f_rows f = [] ->
   run fromisoformat a w
   = (mkeff ["ERROR: new CSV is empty"%string] [], Halt (SysExit 2)))
  /\ (forall header new_body,
         f_rows f = header :: new_body ->
         ~ In (date_col a) header ->
         run fromisoformat a w
         = (mkeff [("ERROR: date column '" ++ date_col a
                    ++ "' not found in NEW header")%string] [],
            Halt (SysExit 2)))
  /\ (forall header di cutoff,
         f_rows f = [header] ->
         index (date_col a) header = Some di ->
         Date.sub_days (today w) (keep_days a) = Ok cutoff ->
         run fromisoformat a w
         = (mkeff (warnings_of a w header)
                  [(arg_out a,
                    header
                      :: sorted (key fromisoformat di)
                           (keep_old fromisoformat header di cutoff
                              (tl (old_rows_of a w header))))],
            Next tt)).
Proof.
  intros Hf.
  assert (Hr : read_csv w (arg_new a) = Ok (f_rows f))
    by (unfold read_csv; rewrite Hf; reflexivity).
  split; [|split].
  - intros E. rewrite E in Hr. apply run_empty, Hr.
  - intros header new_body E Hnin. rewrite E in Hr.
    apply (run_no_column fromisoformat a w header new_body Hr).
    apply index_None, Hnin.
  - intros header di cutoff E Hi Hc. rewrite E in Hr.
    rewrite (run_checked fromisoformat a w header [] di Hr Hi), Hc.
    rewrite (merge_ok fromisoformat header di cutoff [] _ [] eq_refl).
    unfold recent. simpl. rewrite app_nil_r. reflexivity.
Qed.

Lemma new_table_checks_witness :
  run Date.fromisoformat_ymd Scenario.a_new_only Scenario.w_empty
  = (mkeff ["ERROR: new CSV is empty"%string] [], Halt (SysExit 2))
  /\ run Date.fromisoformat_ymd Scenario.a_new_only Scenario.w_no_column
     = (mkeff ["ERROR: date column 'Date' not found in NEW header"%string] [],
        Halt (SysExit 2))
  /\ run Date.fromisoformat_ymd Scenario.a Scenario.w_header_only
     = (mkeff [] [("out.csv"%string,
                   [Scenario.header;
                    ["2024-01-01"; "1"]; ["2024-01-02"; "2"];
                    ["2024-01-03"; "3"]]%string)],
        Next tt).
Proof.
  split; [|split].
  - exact (proj1 (new_table_checks Date.fromisoformat_ymd
                    Scenario.a_new_only Scenario.w_empty (mkfile 0 [])
                    eq_refl) eq_refl).
  - refine (proj1 (proj2 (new_table_checks Date.fromisoformat_ymd
                            Scenario.a_new_only Scenario.w_no_column
                            (mkfile 24 [["Day"; "Value"];
                                        ["2024-01-04"; "40"]]%string)
                            eq_refl))
                  ["Day"; "Value"]%string [["2024-01-04"; "40"]%string]
                  eq_refl _).
    intros [H|[H|[]]]; discriminate H.
  - exact (proj2 (proj2 (new_table_checks Date.fromisoformat_ymd
                           Scenario.a Scenario.w_header_only
                           (mkfile 11 [Scenario.header]) eq_refl))
                 Scenario.header 0%nat (mkdate 2024 1 4)
                 eq_refl eq_refl eq_refl).
Defined.

(** C7 (as amended).  When NEW cannot be opened or read, the process ends
    in the exception of [open] or of the reading, which nothing catches: the
    status is 1 and not 2, the error stream holds the traceback of the
    interpreter, and nothing is written. *)
Theorem unreadable_new_uncaught
        (fromisoformat : string -> option date) (io : faults) (a : args)
        (w : world) (x : exn) :
  open_csv io w (arg_new a) = Raise x ->
  process fromisoformat io (Parsed a) w = (mkeff [] [], Halt (Uncaught x))
  /\ exit_status (snd (process fromisoformat io (Parsed a) w)) = 1%Z
  /\ error_stream (process fromisoformat io (Parsed a) w) = [Traceback x]
  /\ written (fst (process fromisoformat io (Parsed a) w)) = [].
Proof.
  intros H. rewrite (process_unreadable fromisoformat io a w x H).
  repeat split; reflexivity.
Qed.

Lemma unreadable_new_uncaught_witness :
  (open_csv no_fault Scenario.w_nothing (arg_new Scenario.a_new_only)
   = Raise FileNotFoundError
   /\ error_stream (process Date.fromisoformat_ymd no_fault
                      (Parsed Scenario.a_new_only) Scenario.w_nothing)
      = [Traceback FileNotFoundError])
  /\ (open_csv Scenario2.io_new_undecodable Scenario.w (arg_new Scenario.a)
      = Raise UnicodeDecodeError
      /\ error_stream (process Date.fromisoformat_ymd
                         Scenario2.io_new_undecodable
                         (Parsed Scenario.a) Scenario.w)
         = [Traceback UnicodeDecodeError]).
Proof.
  split; (split; [reflexivity|]).
  - exact (proj1 (proj2 (proj2
             (unreadable_new_uncaught Date.fromisoformat_ymd no_fault
                Scenario.a_new_only Scenario.w_nothing FileNotFoundError
                eq_refl)))).
  - exact (proj1 (proj2 (proj2
             (unreadable_new_uncaught Date.fromisoformat_ymd
                Scenario2.io_new_undecodable Scenario.a Scenario.w
                UnicodeDecodeError eq_refl)))).
Defined.

(** C7, the claim as written fails: with no file to open, and with a file
    that is not UTF-8, the status is not 2. *)
Lemma unreadable_new_exit_2_counterexample :
  (open_csv no_fault Scenario.w_nothing (arg_new Scenario.a_new_only)
   = Raise FileNotFoundError
   /\ exit_status
        (snd (process Date.fromisoformat_ymd no_fault
                (Parsed Scenario.a_new_only) Scenario.w_nothing))
      <> 2%Z)
  /\ (open_csv Scenario2.io_new_undecodable Scenario.w (arg_new Scenario.a)
      = Raise UnicodeDecodeError
      /\ exit_status
           (snd (process Date.fromisoformat_ymd Scenario2.io_new_undecodable
                   (Parsed Scenario.a) Scenario.w))
         <> 2%Z).
Proof.
  split; (split; [reflexivity|]); cbv; discriminate.
Qed.

(** ** Headers that differ *)

(** C8.  When OLD is read and its header is not the header of NEW, the
    script prints the warning and goes on: it does not exit, and when the
    rest of the run meets no failure of its own (the cutoff is a date, the
    rows of NEW parse) the run ends well with the header of NEW written
    first. *)
Theorem header_mismatch_warns
        (fromisoformat : string -> option date) (a : args) (w : world)
        (header : row) (new_body : list row) (di : nat)
        (p : string) (fo : file) (oh : row) (ob : list row) :
  read_csv w (arg_new a) = Ok (header :: new_body) ->
  index (date_col a) header = Some di ->
  old_given a w = Some p ->
  fs w p = Some fo ->
  f_rows fo = oh :: ob ->
  oh <> header ->
  stderr (fst (run fromisoformat a w)) = [WARNING]
  /\ (forall c, snd (run fromisoformat a w) <> Halt (SysExit c))
  /\ (forall cutoff,
         Date.sub_days (today w) (keep_days a) = Ok cutoff ->
         clean fromisoformat header di new_body ->
         exists body,
           run fromisoformat a w
           = (mkeff [WARNING] [(arg_out a, header :: body)], Next tt)).
Proof.
  intros Hn Hi Hg Hf Hr Hne.
  assert (Hload : load_old no_fault a w header (mkeff [] [])
                  = (mkeff [WARNING] [], Next (oh :: ob))).
  { unfold load_old. rewrite Hg. unfold bind, lift, open_csv, no_fault, read_csv.
    rewrite Hf, Hr. simpl.
    destruct (list_eq_dec string_dec oh header); [contradiction|].
    reflexivity. }
  assert (Hw : warnings_of a w header = [WARNING])
    by (unfold warnings_of; rewrite Hload; reflexivity).
  assert (Ho : old_rows_of a w header = oh :: ob)
    by (unfold old_rows_of; rewrite Hload; reflexivity).
  pose proof (run_checked fromisoformat a w header new_body di Hn Hi) as E.
  rewrite Hw in E. split; [|split].
  - rewrite E.
    destruct (Date.sub_days (today w) (keep_days a)) as [c0|x]; [|reflexivity].
    destruct (merge fromisoformat header di c0 new_body _); reflexivity.
  - intros c. rewrite E.
    destruct (Date.sub_days (today w) (keep_days a)) as [c0|x]; [|discriminate].
    destruct (merge fromisoformat header di c0 new_body _); discriminate.
  - intros cutoff Hc Hcl.
    destruct (run_loaded_clean fromisoformat a w header new_body
                (tl (old_rows_of a w header)) di cutoff) as (nr & _ & Hrun).
    + repeat split; assumption.
    + exact Hcl.
    + rewrite Hw in Hrun. eexists. exact Hrun.
Qed.

Lemma header_mismatch_warns_witness :
  run Date.fromisoformat_ymd Scenario.a Scenario.w_drift
  = (mkeff [WARNING] [("out.csv"%string,
                       Scenario.header
                         :: [["2024-01-01"; "1"]; ["2024-01-04"; "40"];
                             ["2024-01-05"; "50"]; ["2024-01-06"; "60"]]%string)],
     Next tt).
Proof.
  assert (Hne : ["Date"; "Close"]%string <> Scenario.header)
    by discriminate.
  assert (Hc : clean Date.fromisoformat_ymd Scenario.header 0
                     (tl Scenario.new_table)).
  { intros r [<-|[<-|[<-|[]]]] _; cbv; discriminate. }
  destruct (header_mismatch_warns Date.fromisoformat_ymd
              Scenario.a Scenario.w_drift Scenario.header
              (tl Scenario.new_table) 0 "old.csv"
              (mkfile 24 [["Date"; "Close"]; ["2024-01-01"; "1"]]%string)
              ["Date"; "Close"]%string [["2024-01-01"; "1"]%string]
              eq_refl eq_refl eq_refl eq_refl eq_refl Hne)
    as (_ & _ & Hdone).
  destruct (Hdone (mkdate 2024 1 4) eq_refl Hc) as [body Hrun].
  rewrite Hrun. cbv in Hrun. injection Hrun as <-. reflexivity.
Defined.

(** ** The index of the date column *)

Lemma sub_days_Raise (d : date) (k : Z) (x : exn) :
  Date.sub_days d k = Raise x -> x = OverflowError.
Proof.
  unfold Date.sub_days. destruct (Z.abs k <=? 999999999)%Z; [|congruence].
  destruct (_ && _)%bool; [discriminate | congruence].
Qed.

(** No run ends in an [IndexError]. *)
Lemma run_no_IndexError (fromisoformat : string -> option date)
      (a : args) (w : world) (e : effects) :
  run fromisoformat a w <> (e, Halt (Uncaught IndexError)).
Proof.
  intros H.
  destruct (fs w (arg_new a)) as [f|] eqn:Ef;
    [|rewrite (run_unreadable fromisoformat a w Ef) in H; discriminate].
  assert (Hr : read_csv w (arg_new a) = Ok (f_rows f))
    by (unfold read_csv; rewrite Ef; reflexivity).
  destruct (f_rows f) as [|header new_body];
    [rewrite (run_empty fromisoformat a w Hr) in H; discriminate|].
  destruct (index (date_col a) header) as [di|] eqn:Ei;
    [|rewrite (run_no_column fromisoformat a w _ _ Hr Ei) in H; discriminate].
  destruct (index_Some _ _ _ Ei) as [Hdi _].
  rewrite (run_checked fromisoformat a w _ _ _ Hr Ei) in H.
  destruct (Date.sub_days (today w) (keep_days a)) as [cutoff|x] eqn:Ec.
  - destruct (merge fromisoformat header di cutoff new_body _) as [t|x] eqn:Em;
      [discriminate|].
    destruct (merge_Raise fromisoformat _ _ _ _ _ _ Hdi Em) as [-> _].
    discriminate.
  - apply sub_days_Raise in Ec. subst x. discriminate.
Qed.

(** C10.  The index of the date column is a position of the header of NEW,
    so it is below the length of the header; a row that has passed the check
    of its length has a field there, reading its date raises no
    [IndexError], and no run ends in one. *)
Theorem date_index_in_bounds
        (fromisoformat : string -> option date) (name : string)
        (header : row) (di : nat) (r : row) :
  index name header = Some di ->
  List.length r = List.length header ->
  (di < List.length header)%nat
  /\ (exists s, getitem r di = Ok s)
  /\ date_at fromisoformat di r <> Raise IndexError
  /\ forall a w e, run fromisoformat a w <> (e, Halt (Uncaught IndexError)).
Proof.
  intros Hi Hl. destruct (index_Some _ _ _ Hi) as [Hdi _].
  destruct (getitem_lt _ r di) as [s Hs]; [lia|].
  split; [exact Hdi|]. split; [exists s; exact Hs|]. split.
  - unfold date_at. rewrite Hs. simpl. intros H.
    apply parse_date_Raise in H. discriminate.
  - intros a w e. apply run_no_IndexError.
Qed.

Lemma date_index_in_bounds_witness :
  (0 < List.length Scenario.header)%nat
  /\ (exists s, getitem ["2024-01-01"; "1"]%string 0 = Ok s)
  /\ date_at Date.fromisoformat_ymd 0 ["2024-01-01"; "1"]%string
     <> Raise IndexError
  /\ forall a w e,
       run Date.fromisoformat_ymd a w <> (e, Halt (Uncaught IndexError)).
Proof.
  exact (date_index_in_bounds Date.fromisoformat_ymd "Date" Scenario.header 0
           ["2024-01-01"; "1"]%string eq_refl eq_refl).
Defined.

(** * Further properties *)

(** ** Reading a date field *)

Module StrFacts.

Lemma lstrip_cases (s : string) :
  (blank s = true /\ Str.lstrip s = EmptyString)
  \/ (blank s = false
      /\ exists c t, Str.lstrip s = String c t /\ Str.isspace c = false).
Proof.
  induction s as [|c s IH]; simpl.
  - left. split; reflexivity.
  - destruct (Str.isspace c) eqn:E; simpl.
    + exact IH.
    + right. split; [reflexivity|]. exists c, s. split; [reflexivity | exact E].
Qed.

Lemma rstrip_cons (c : ascii) (s : string) :
  Str.isspace c = false -> Str.rstrip (String c s) = String c (Str.rstrip s).
Proof.
  intros E. simpl. destruct (Str.rstrip s); [rewrite E|]; reflexivity.
Qed.

Lemma rstrip_blank (s : string) :
  Str.rstrip s = EmptyString <-> blank s = true.
Proof.
  induction s as [|c s IH]; simpl.
  - split; reflexivity.
  - destruct (Str.rstrip s) as [|c' t] eqn:E.
    + destruct (Str.isspace c); simpl.
      * split; [intros _; apply IH; reflexivity | reflexivity].
      * split; discriminate.
    + split; [discriminate|]. intros H. apply andb_true_iff in H.
      destruct H as [_ H]. apply IH in H. discriminate.
Qed.

Lemma strip_blank (s : string) :
  Str.strip s = EmptyString <-> blank s = true.
Proof.
  unfold Str.strip. rewrite rstrip_blank.
  destruct (lstrip_cases s) as [[Hb Hl]|[Hb (c & t & Hl & Hc)]];
    rewrite Hl, Hb; simpl; [tauto|].
  rewrite Hc. simpl. tauto.
Qed.

Lemma lstrip_blank_app (b s : string) :
  blank b = true -> Str.lstrip (b ++ s) = Str.lstrip s.
Proof.
  induction b as [|c b IH]; simpl; intros H; [reflexivity|].
  apply andb_true_iff in H. destruct H as [Hc Hb]. rewrite Hc. apply IH, Hb.
Qed.

Lemma lstrip_app (s x : string) (c : ascii) (t : string) :
  Str.lstrip s = String c t -> Str.lstrip (s ++ x) = (Str.lstrip s ++ x)%string.
Proof.
  induction s as [|c0 s IH]; simpl; [discriminate|].
  destruct (Str.isspace c0); [exact IH | reflexivity].
Qed.

Lemma rstrip_app_blank (s b : string) :
  blank b = true -> Str.rstrip (s ++ b) = Str.rstrip s.
Proof.
  intros Hb. induction s as [|c s IH]; simpl.
  - apply rstrip_blank, Hb.
  - rewrite IH. reflexivity.
Qed.

Lemma blank_app (s b : string) :
  blank (s ++ b) = (blank s && blank b)%bool.
Proof.
  induction s as [|c s IH]; simpl; [reflexivity|].
  rewrite IH, andb_assoc. reflexivity.
Qed.

(** Whitespace around a field does not count. *)
Lemma strip_pad (b1 s b2 : string) :
  blank b1 = true -> blank b2 = true ->
  Str.strip (b1 ++ s ++ b2) = Str.strip s.
Proof.
  intros H1 H2. unfold Str.strip. rewrite (lstrip_blank_app _ _ H1).
  destruct (lstrip_cases s) as [[Hb Hl]|[Hb (c & t & Hl & Hc)]].
  - destruct (lstrip_cases (s ++ b2)) as [[_ Hl']|[Hb' _]].
    + rewrite Hl, Hl'. reflexivity.
    + rewrite blank_app, Hb, H2 in Hb'. discriminate.
  - rewrite (lstrip_app s b2 c t Hl). apply rstrip_app_blank, H2.
Qed.

Lemma plain_cons (c : ascii) (s : string) :
  plain (String c s) = true ->
  Str.isspace c = false /\ Ascii.eqb c "T" = false /\ plain s = true.
Proof.
  simpl. rewrite !andb_true_iff, !negb_true_iff. tauto.
Qed.

Lemma plain_not_space (c : ascii) :
  Str.isspace c = false -> Ascii.eqb c " " = false.
Proof.
  intros H. destruct (Ascii.eqb_spec c " ") as [->|_]; [|reflexivity].
  discriminate H.
Qed.

Lemma lstrip_plain (s : string) : plain s = true -> Str.lstrip s = s.
Proof.
  destruct s as [|c s]; [reflexivity|]. intros H.
  apply plain_cons in H. destruct H as (Hc & _ & _). simpl. rewrite Hc.
  reflexivity.
Qed.

Lemma rstrip_plain_app (s x : string) :
  plain s = true -> Str.rstrip (s ++ x) = (s ++ Str.rstrip x)%string.
Proof.
  induction s as [|c s IH]; intros H; [reflexivity|].
  apply plain_cons in H. destruct H as (Hc & _ & Hs).
  change (String c s ++ x)%string with (String c (s ++ x)).
  rewrite (rstrip_cons _ _ Hc), (IH Hs). reflexivity.
Qed.

Lemma before_T_plain_app (s x : string) :
  plain s = true -> Str.before "T" (s ++ x) = (s ++ Str.before "T" x)%string.
Proof.
  induction s as [|c s IH]; intros H; [reflexivity|].
  apply plain_cons in H. destruct H as (_ & Hc & Hs).
  simpl. rewrite Hc, (IH Hs). reflexivity.
Qed.

Lemma before_space_plain (s x : string) :
  plain s = true -> Str.before " " (s ++ String " " x) = s.
Proof.
  induction s as [|c s IH]; intros H; [reflexivity|].
  apply plain_cons in H. destruct H as (Hc & _ & Hs).
  simpl. rewrite (plain_not_space _ Hc), (IH Hs). reflexivity.
Qed.

Lemma before_space_plain_end (s : string) :
  plain s = true -> Str.before " " s = s.
Proof.
  induction s as [|c s IH]; intros H; [reflexivity|].
  apply plain_cons in H. destruct H as (Hc & _ & Hs).
  simpl. rewrite (plain_not_space _ Hc), (IH Hs). reflexivity.
Qed.

Lemma app_empty_r (s : string) : (s ++ EmptyString)%string = s.
Proof. induction s as [|c s IH]; simpl; [|rewrite IH]; reflexivity. Qed.

(** What is left of a plain date once a time is attached to it. *)
Lemma date_part (s t : string) (sep : ascii) :
  plain s = true -> s <> EmptyString ->
  sep = " "%char \/ sep = "T"%char ->
  Str.strip (s ++ String sep t) <> EmptyString
  /\ Str.before " " (Str.before "T" (Str.strip (s ++ String sep t))) = s.
Proof.
  intros Hs Hne Hsep. unfold Str.strip.
  assert (Hl : Str.lstrip (s ++ String sep t) = (s ++ String sep t)%string).
  { destruct s as [|c s]; [contradiction|].
    apply plain_cons in Hs. destruct Hs as (Hc & _ & _).
    simpl. rewrite Hc. reflexivity. }
  rewrite Hl, (rstrip_plain_app _ _ Hs). split.
  - destruct s as [|c s]; [contradiction | discriminate].
  - rewrite (before_T_plain_app _ _ Hs).
    destruct Hsep as [->| ->].
    + simpl. destruct (Str.rstrip t) as [|c' t'] eqn:Et; simpl.
      * rewrite app_empty_r. apply before_space_plain_end, Hs.
      * apply before_space_plain, Hs.
    + rewrite (rstrip_cons "T" t eq_refl). simpl.
      rewrite app_empty_r. apply before_space_plain_end, Hs.
Qed.

End StrFacts.

(** ** More on sorting *)

Section SortingMore.

Variable A : Type.
Variable key : A -> date.

Lemma StronglySorted_filter (R : A -> A -> Prop) (f : A -> bool) (l : list A) :
  StronglySorted R l -> StronglySorted R (filter f l).
Proof.
  induction 1 as [|x l Hs IH Hx]; simpl; [constructor|].
  destruct (f x); [|exact IH]. constructor; [exact IH|].
  rewrite Forall_forall in Hx |- *. intros y Hy.
  apply filter_In in Hy. apply Hx, Hy.
Qed.

Lemma StronglySorted_app (R : A -> A -> Prop) (l1 l2 : list A) :
  StronglySorted R l1 -> StronglySorted R l2 ->
  (forall x y, In x l1 -> In y l2 -> R x y) ->
  StronglySorted R (l1 ++ l2).
Proof.
  intros H1 H2 H. induction H1 as [|x l1 Hs IH Hx]; simpl; [exact H2|].
  constructor.
  - apply IH. intros a b Ha Hb. apply H; [right; exact Ha | exact Hb].
  - apply Forall_app. split; [exact Hx|].
    apply Forall_forall. intros y Hy. apply H; [left; reflexivity | exact Hy].
Qed.

Lemma filter_comm (f g : A -> bool) (l : list A) :
  filter f (filter g l) = filter g (filter f l).
Proof.
  induction l as [|x l IH]; simpl; [reflexivity|].
  destruct (g x) eqn:Eg, (f x) eqn:Ef; simpl; rewrite ?Eg, ?Ef, IH;
    reflexivity.
Qed.

(** A list already in order leaves the sort as it entered. *)
Lemma sorted_id (l : list A) :
  StronglySorted (key_le key) l -> sorted key l = l.
Proof.
  intros H. symmetry. apply stable_sort_unique; [exact H | reflexivity].
Qed.

(** Sorting and then selecting is selecting and then sorting. *)
Lemma filter_sorted (f : A -> bool) (l : list A) :
  filter f (sorted key l) = sorted key (filter f l).
Proof.
  apply stable_sort_unique.
  - apply StronglySorted_filter, sorted_sorted.
  - intros d. rewrite filter_comm, sorted_keyed. apply filter_comm.
Qed.

Lemma sorted_app_sorted (l1 l2 : list A) :
  sorted key (sorted key l1 ++ l2) = sorted key (l1 ++ l2).
Proof.
  symmetry. apply stable_sort_unique; [apply sorted_sorted|].
  intros d. rewrite sorted_keyed, !filter_app, sorted_keyed. reflexivity.
Qed.

Lemma StronglySorted_map (B : Type) (R : A -> A -> Prop) (R' : B -> B -> Prop)
      (f : A -> B) (l : list A) :
  (forall x y, In x l -> In y l -> R x y -> R' (f x) (f y)) ->
  StronglySorted R l -> StronglySorted R' (map f l).
Proof.
  intros H Hs. induction Hs as [|x l Hs IH Hx]; simpl; [constructor|].
  constructor.
  - apply IH. intros a b Ha Hb. apply H; right; assumption.
  - rewrite Forall_forall in Hx. apply Forall_forall. intros y Hy.
    apply in_map_iff in Hy. destruct Hy as (z & <- & Hz).
    apply H; [left; reflexivity | right; exact Hz | apply Hx, Hz].
Qed.

End SortingMore.

Lemma index_first (x : string) (l : list string) (i : nat) :
  index x l = Some i ->
  forall j, (j < i)%nat -> nth_error l j <> Some x.
Proof.
  revert i. induction l as [|y l IH]; simpl; intros i H j Hj; [discriminate|].
  destruct (String.eqb_spec y x) as [->|Hne].
  - injection H as <-. lia.
  - destruct (index x l) as [k|]; [|discriminate]. injection H as <-.
    destruct j as [|j]; simpl.
    + intros E. injection E as E. contradiction.
    + apply (IH k eq_refl). lia.
Qed.

(** ** More on the body that is written *)

Section OutputMore.

Variable fromisoformat : string -> option date.
Variables (header : row) (di : nat) (cutoff : date).
Variables (new_body old_body : list row) (nr : Dict.t).

Local Abbreviation date_at := (date_at fromisoformat).
Local Abbreviation key := (key fromisoformat).
Local Abbreviation has_date := (has_date fromisoformat).
Local Abbreviation usable := (usable fromisoformat header di).
Local Abbreviation usableb := (usableb fromisoformat header di).
Local Abbreviation last_usable := (last_usable fromisoformat header di).
Local Abbreviation row_le := (row_le fromisoformat).
Local Abbreviation keep_old := (keep_old fromisoformat header di cutoff).
Local Abbreviation merge := (merge fromisoformat header di cutoff).

Hypothesis Hnr : index_new fromisoformat header di cutoff new_body [] = Ok nr.

Local Abbreviation body :=
  (sorted (key di) (keep_old old_body ++ recent nr)).

Lemma before_cutoff_le (d d' : date) :
  Date.ltb d cutoff = true -> Date.geb d' cutoff = true -> Date.le d d'.
Proof.
  intros Hd Hd'. unfold Date.le.
  destruct (Date.ltb d' d) eqn:E; [|reflexivity].
  rewrite DateFacts.geb_ltb, (DateFacts.ltb_trans _ _ _ E Hd) in Hd'.
  discriminate.
Qed.

Lemma row_le_key_le (l : list row) :
  StronglySorted (row_le di) l -> StronglySorted (key_le (key di)) l.
Proof.
  intros H. eapply StronglySorted_map with (f := fun r => r) in H.
  - rewrite map_id in H. exact H.
  - intros x y _ _. unfold row_le, key_le, key.
    destruct (date_at di x) as [[dx|]|]; try contradiction.
    destruct (date_at di y) as [[dy|]|]; try contradiction.
    intros Hle. exact Hle.
Qed.

Lemma recent_window (r : row) :
  In r (recent nr) ->
  exists d, usable r d /\ Date.geb d cutoff = true /\ In (d, r) nr.
Proof.
  intros Hr. apply recent_In in Hr. destruct Hr as [d Hr].
  destruct (new_recent_inv fromisoformat header di cutoff new_body nr Hnr)
    as [_ Hall].
  rewrite Forall_forall in Hall. destruct (Hall _ Hr) as [Hu Hg].
  exists d. split; [exact Hu|]. split; [exact Hg | exact Hr].
Qed.

(** The rows taken from NEW are appended in the order of their dates. *)
Lemma recent_sorted : StronglySorted (key_le (key di)) (recent nr).
Proof.
  destruct (new_recent_inv fromisoformat header di cutoff new_body nr Hnr)
    as [Hnd Hall].
  unfold recent.
  apply StronglySorted_map with (R := key_le (@fst date row));
    [|apply sorted_sorted].
  intros [k v] [k' v'] Hx Hy Hle. apply sorted_In in Hx, Hy.
  rewrite Forall_forall in Hall.
  destruct (Hall _ Hx) as [[_ Hd] _]. destruct (Hall _ Hy) as [[_ Hd'] _].
  simpl in *. unfold key_le in *. simpl in Hle.
  rewrite (key_date fromisoformat di v k Hd).
  rewrite (key_date fromisoformat di v' k' Hd'). exact Hle.
Qed.

Lemma merged_sorted :
  StronglySorted (key_le (key di)) (keep_old old_body) ->
  StronglySorted (key_le (key di)) (keep_old old_body ++ recent nr).
Proof.
  intros H. apply StronglySorted_app; [exact H | apply recent_sorted|].
  intros x y Hx Hy. apply keep_old_In in Hx.
  destruct Hx as (_ & d & [_ Hd] & Hlt).
  apply recent_window in Hy. destruct Hy as (d' & [_ Hd'] & Hge & _).
  unfold key_le.
  rewrite (key_date fromisoformat di x d Hd).
  rewrite (key_date fromisoformat di y d' Hd').
  exact (before_cutoff_le _ _ Hlt Hge).
Qed.

(** History that is in order is written as it stands, the rows of NEW
    after it. *)
Lemma body_verbatim :
  StronglySorted (row_le di) (keep_old old_body) ->
  body = keep_old old_body ++ recent nr.
Proof.
  intros H. apply sorted_id, merged_sorted, row_le_key_le, H.
Qed.

Lemma recent_before_cutoff (d : date) :
  Date.ltb d cutoff = true -> filter (has_date di d) (recent nr) = [].
Proof.
  intros Hd.
  destruct (filter (has_date di d) (recent nr)) as [|r t] eqn:E;
    [reflexivity|].
  assert (Hin : In r (filter (has_date di d) (recent nr)))
    by (rewrite E; left; reflexivity).
  apply filter_In in Hin. destruct Hin as [Hin Hr].
  apply has_date_true in Hr. apply recent_window in Hin.
  destruct Hin as (d' & [_ Hd'] & Hge & _).
  rewrite Hr in Hd'. injection Hd' as <-.
  rewrite DateFacts.geb_ltb, Hd in Hge. discriminate.
Qed.

Lemma keep_old_has_date (d : date) (l : list row) :
  Date.ltb d cutoff = true ->
  filter (has_date di d) (keep_old l) = filter (usableb d) l.
Proof.
  intros Hd. induction l as [|r l IH]; simpl; [reflexivity|].
  unfold usableb at 1.
  destruct (List.length r =? List.length header)%nat; simpl; [|exact IH].
  unfold has_date at 2.
  destruct (date_at di r) as [[d'|]|x] eqn:Er; [|exact IH|exact IH].
  destruct (Date.eqb d' d) eqn:E.
  - apply DateFacts.eqb_eq in E. subst d'. rewrite Hd. simpl.
    unfold has_date at 1. rewrite Er, DateFacts.eqb_refl. f_equal. exact IH.
  - destruct (Date.ltb d' cutoff); [|exact IH]. simpl.
    unfold has_date at 1. rewrite Er, E. exact IH.
Qed.

(** Before the cutoff the body holds, date by date, the usable rows of OLD
    in their order and with their repetitions. *)
Lemma body_history (d : date) :
  Date.ltb d cutoff = true ->
  filter (has_date di d) body = filter (usableb d) old_body.
Proof.
  intros Hd.
  rewrite (body_stable fromisoformat header di cutoff new_body old_body nr Hnr).
  rewrite filter_app, (recent_before_cutoff d Hd), app_nil_r.
  apply keep_old_has_date, Hd.
Qed.

Lemma new_recent_In (d : date) (r : row) :
  In (d, r) nr <->
  Date.geb d cutoff = true /\ last_usable d new_body = Some r.
Proof.
  destruct (new_recent_inv fromisoformat header di cutoff new_body nr Hnr)
    as [Hnd Hall].
  split.
  - intros Hin. rewrite Forall_forall in Hall.
    destruct (Hall _ Hin) as [_ Hg]. simpl in Hg. split; [exact Hg|].
    pose proof (index_new_get fromisoformat header di cutoff d new_body []
                  nr Hnr Hg) as E.
    rewrite (DictFacts.get_In nr d r Hnd Hin) in E.
    destruct (last_usable d new_body); simpl in E; congruence.
  - intros [Hg Hl]. apply DictFacts.get_Ok.
    rewrite (index_new_get fromisoformat header di cutoff d new_body []
               nr Hnr Hg), Hl. reflexivity.
Qed.

(** Which rows are written. *)
Lemma body_member (r : row) :
  In r body <->
  (In r old_body /\ exists d, usable r d /\ Date.ltb d cutoff = true)
  \/ (exists d, Date.geb d cutoff = true /\ last_usable d new_body = Some r).
Proof.
  rewrite (body_In fromisoformat header di cutoff old_body nr r).
  rewrite keep_old_In, recent_In.
  split; (intros [H|[d H]]; [left; exact H | right; exists d]);
    apply new_recent_In; exact H.
Qed.

(** The loop over OLD, run on the body written, keeps the history. *)
Lemma keep_old_body :
  keep_old body = sorted (key di) (keep_old old_body).
Proof.
  rewrite (keep_old_filter fromisoformat header di cutoff body).
  rewrite filter_sorted, filter_app.
  rewrite <- (keep_old_filter fromisoformat header di cutoff).
  rewrite <- (keep_old_filter fromisoformat header di cutoff).
  assert (E : keep_old (recent nr) = []).
  { destruct (keep_old (recent nr)) as [|r t] eqn:E; [reflexivity|].
    assert (Hin : In r (keep_old (recent nr)))
      by (rewrite E; left; reflexivity).
    apply keep_old_In in Hin. destruct Hin as (Hin & d & [_ Hd] & Hlt).
    apply recent_window in Hin. destruct Hin as (d' & [_ Hd'] & Hge & _).
    rewrite Hd in Hd'. injection Hd' as <-.
    rewrite DateFacts.geb_ltb, Hlt in Hge. discriminate. }
  rewrite E, app_nil_r. f_equal.
  rewrite (keep_old_filter fromisoformat header di cutoff (keep_old old_body)).
  rewrite (keep_old_filter fromisoformat header di cutoff old_body).
  clear. induction old_body as [|r l IH]; simpl; [reflexivity|].
  match goal with |- context [if ?b then _ else _] => destruct b eqn:Eb end;
    simpl; [rewrite Eb; f_equal|]; exact IH.
Qed.

(** Merging the body written with the same NEW gives the same table. *)
Lemma merge_idem : merge new_body body = Ok (header :: body).
Proof.
  rewrite (merge_ok fromisoformat header di cutoff new_body body nr Hnr).
  rewrite keep_old_body, sorted_app_sorted. reflexivity.
Qed.

End OutputMore.

(** ** What [parse_date] reads *)

(** X1.  [parse_date] answers [None] for the fields made of whitespace only,
    the empty field among them, and for no other field. *)
Theorem parse_date_None_iff_blank
        (fromisoformat : string -> option date) (s : string) :
  parse_date fromisoformat s = Ok None <-> blank s = true.
Proof.
  rewrite <- StrFacts.strip_blank. unfold parse_date.
  destruct (Str.strip s) as [|c t]; simpl.
  - split; reflexivity.
  - destruct (fromisoformat _); split; discriminate.
Qed.

(** X2.  What follows the date after a space or a T is not read: a date
    without whitespace and without T parses the same with a time attached. *)
Theorem parse_date_ignores_time
        (fromisoformat : string -> option date) (s t : string) (sep : ascii) :
  plain s = true -> s <> EmptyString ->
  sep = " "%char \/ sep = "T"%char ->
  parse_date fromisoformat (s ++ String sep t) = parse_date fromisoformat s.
Proof.
  intros Hs Hne Hsep.
  destruct (StrFacts.date_part s t sep Hs Hne Hsep) as [Hn Hd].
  assert (Hstrip : Str.strip s = s).
  { unfold Str.strip. rewrite (StrFacts.lstrip_plain s Hs).
    rewrite <- (StrFacts.app_empty_r s) at 1.
    rewrite (StrFacts.rstrip_plain_app s EmptyString Hs).
    apply StrFacts.app_empty_r. }
  assert (HT : Str.before "T" s = s).
  { rewrite <- (StrFacts.app_empty_r s) at 1.
    rewrite (StrFacts.before_T_plain_app s EmptyString Hs).
    apply StrFacts.app_empty_r. }
  unfold parse_date. rewrite Hd, Hstrip, HT.
  rewrite (StrFacts.before_space_plain_end s Hs).
  destruct (Str.strip (s ++ String sep t)); [contradiction|].
  destruct s; [contradiction | reflexivity].
Qed.

Lemma parse_date_ignores_time_witness :
  parse_date Date.fromisoformat_ymd ("2024-01-05" ++ String " " "17:30")
  = parse_date Date.fromisoformat_ymd "2024-01-05"
  /\ parse_date Date.fromisoformat_ymd ("2024-01-05" ++ String "T" "17:30:00Z")
     = parse_date Date.fromisoformat_ymd "2024-01-05".
Proof.
  split.
  - refine (parse_date_ignores_time Date.fromisoformat_ymd "2024-01-05"
              "17:30" " " eq_refl _ (or_introl eq_refl)).
    discriminate.
  - refine (parse_date_ignores_time Date.fromisoformat_ymd "2024-01-05"
              "17:30:00Z" "T" eq_refl _ (or_intror eq_refl)).
    discriminate.
Defined.

(** X3.  Whitespace before and after a field does not change what is
    read. *)
Theorem parse_date_ignores_padding
        (fromisoformat : string -> option date) (b1 s b2 : string) :
  blank b1 = true -> blank b2 = true ->
  parse_date fromisoformat (b1 ++ s ++ b2) = parse_date fromisoformat s.
Proof.
  intros H1 H2. unfold parse_date.
  rewrite (StrFacts.strip_pad b1 s b2 H1 H2). reflexivity.
Qed.

Lemma parse_date_ignores_padding_witness :
  parse_date Date.fromisoformat_ymd ("  " ++ "2024-01-05" ++ " ")
  = parse_date Date.fromisoformat_ymd "2024-01-05".
Proof.
  exact (parse_date_ignores_padding Date.fromisoformat_ymd
           "  " "2024-01-05" " " eq_refl eq_refl).
Defined.

(** ** The column of the dates *)

(** X4.  When the header of NEW holds the name of the date column more than
    once, the dates are read in the first column of that name: on a run
    that ends well the header written has the name at some index and at no
    smaller one, every row written has at that index a field that
    [parse_date] reads as a date, and the rows are in the order of these
    dates. *)
Theorem date_column_is_first
        (fromisoformat : string -> option date) (a : args) (w : world)
        (e : effects) :
  run fromisoformat a w = (e, Next tt) ->
  exists header di body,
    written e = [(arg_out a, header :: body)]
    /\ nth_error header di = Some (date_col a)
    /\ (forall j, (j < di)%nat -> nth_error header j <> Some (date_col a))
    /\ Forall (fun r => exists s d,
                   nth_error r di = Some s
                   /\ parse_date fromisoformat s = Ok (Some d)) body
    /\ StronglySorted (row_le fromisoformat di) body.
Proof.
  intros Hrun.
  destruct (run_Next_inv fromisoformat a w e Hrun)
    as (header & new_body & old_body & di & cutoff & nr & Hl & Hnr & ->).
  destruct Hl as (_ & Hi & _ & _).
  exists header, di. eexists. split; [reflexivity|].
  split; [exact (proj2 (index_Some _ _ _ Hi))|].
  split; [exact (index_first _ _ _ Hi)|]. split.
  - pose proof (body_dated fromisoformat header di cutoff new_body old_body
                  nr Hnr) as Hd.
    rewrite Forall_forall in Hd |- *. intros r Hr.
    destruct (Hd r Hr) as [d Hd']. unfold date_at, getitem in Hd'.
    destruct (nth_error r di) as [s|]; [|discriminate].
    exists s, d. split; [reflexivity | exact Hd'].
  - eapply body_sorted, Hnr.
Qed.

Lemma date_column_is_first_witness :
  exists body,
    written (fst (run Date.fromisoformat_ymd Scenario.a_new_only
                    Scenario2.w_two_dates))
    = [("out.csv"%string, ["Date"; "Value"; "Date"]%string :: body)]
    /\ Forall (fun r => exists s d,
                   nth_error r 0 = Some s
                   /\ parse_date Date.fromisoformat_ymd s = Ok (Some d)) body.
Proof.
  destruct (date_column_is_first Date.fromisoformat_ymd Scenario.a_new_only
              Scenario2.w_two_dates
              (fst (run Date.fromisoformat_ymd Scenario.a_new_only
                      Scenario2.w_two_dates))
              eq_refl) as (header & di & body & Hw & Hat & Hfirst & Hd & _).
  injection Hw as <- <-.
  destruct di as [|di].
  - eexists. split; [reflexivity | exact Hd].
  - exfalso. apply (Hfirst 0%nat); [lia | reflexivity].
Defined.

(** ** The rows that are written *)

(** X5.  On a run that ends well a row is in the body written exactly when
    it is a usable row of OLD dated before the cutoff, or the last usable
    row of NEW for a date from the cutoff on: no row of OLD from the cutoff
    on, no row of NEW before the cutoff, no row made up. *)
Theorem output_membership
        (fromisoformat : string -> option date) (a : args) (w : world)
        (header : row) (new_body old_body : list row) (di : nat)
        (cutoff : date) (e : effects) :
  loaded a w header new_body old_body di cutoff ->
  run fromisoformat a w = (e, Next tt) ->
  exists body,
    written e = [(arg_out a, header :: body)]
    /\ forall r,
         In r body <->
         (In r old_body
          /\ exists d, usable fromisoformat header di r d
                       /\ Date.ltb d cutoff = true)
         \/ (exists d, Date.geb d cutoff = true
                       /\ last_usable fromisoformat header di d new_body
                          = Some r).
Proof.
  intros Hl Hrun.
  destruct (run_loaded_Next fromisoformat a w _ _ _ _ _ e Hl Hrun)
    as (nr & Hnr & ->).
  eexists. split; [reflexivity|].
  intros r. eapply body_member, Hnr.
Qed.

Lemma output_membership_witness :
  exists body,
    written (fst (run Date.fromisoformat_ymd Scenario.a Scenario.w))
    = [("out.csv"%string, Scenario.header :: body)]
    /\ ~ In ["2024-01-04"; "4"]%string body.
Proof.
  assert (Hl : loaded Scenario.a Scenario.w Scenario.header
                      (tl Scenario.new_table) (tl Scenario.old_table)
                      0 (mkdate 2024 1 4))
    by (repeat split; reflexivity).
  destruct (output_membership Date.fromisoformat_ymd
              Scenario.a Scenario.w Scenario.header
              (tl Scenario.new_table) (tl Scenario.old_table) 0
              (mkdate 2024 1 4)
              (fst (run Date.fromisoformat_ymd Scenario.a Scenario.w))
              Hl eq_refl) as (body & Hw & Hmem).
  exists body. split; [exact Hw|].
  intros Hin. apply Hmem in Hin.
  destruct Hin as [(_ & d & [_ Hd] & Hlt)|(d & Hge & Hlast)].
  - cbv in Hd. injection Hd as <-. discriminate Hlt.
  - apply last_usable_Some in Hlast.
    destruct Hlast as (l1 & l2 & Hsplit & _ & _).
    assert (Hin : In ["2024-01-04"; "4"]%string (tl Scenario.new_table))
      by (rewrite Hsplit; apply in_elt).
    destruct Hin as [H|[H|[H|[]]]]; discriminate H.
Defined.

(** X6.  History is not deduplicated: for a date before the cutoff the body
    written holds the usable rows of OLD with that date, all of them, in the
    order they have in OLD. *)
Theorem history_kept_with_repetitions
        (fromisoformat : string -> option date) (a : args) (w : world)
        (header : row) (new_body old_body : list row) (di : nat)
        (cutoff : date) (e : effects) :
  loaded a w header new_body old_body di cutoff ->
  run fromisoformat a w = (e, Next tt) ->
  exists body,
    written e = [(arg_out a, header :: body)]
    /\ forall d,
         Date.ltb d cutoff = true ->
         filter (has_date fromisoformat di d) body
         = filter (usableb fromisoformat header di d) old_body.
Proof.
  intros Hl Hrun.
  destruct (run_loaded_Next fromisoformat a w _ _ _ _ _ e Hl Hrun)
    as (nr & Hnr & ->).
  eexists. split; [reflexivity|].
  intros d Hd. eapply body_history; eassumption.
Qed.

Lemma history_kept_with_repetitions_witness :
  exists body,
    written (fst (run Date.fromisoformat_ymd Scenario.a Scenario2.w_repeat))
    = [("out.csv"%string, Scenario.header :: body)]
    /\ filter (has_date Date.fromisoformat_ymd 0 (mkdate 2024 1 2)) body
       = [["2024-01-02"; "2"]; ["2024-01-02"; "2b"]]%string.
Proof.
  assert (Hl : loaded Scenario.a Scenario2.w_repeat Scenario.header
                      (tl Scenario.new_table) (tl Scenario2.old_repeat)
                      0 (mkdate 2024 1 4))
    by (repeat split; reflexivity).
  destruct (history_kept_with_repetitions Date.fromisoformat_ymd
              Scenario.a Scenario2.w_repeat Scenario.header
              (tl Scenario.new_table) (tl Scenario2.old_repeat) 0
              (mkdate 2024 1 4)
              (fst (run Date.fromisoformat_ymd Scenario.a Scenario2.w_repeat))
              Hl eq_refl) as (body & Hw & Hd).
  exists body. split; [exact Hw|].
  rewrite (Hd (mkdate 2024 1 2) eq_refl). reflexivity.
Defined.

(** X7.  When the rows kept from OLD are already in the order of their
    dates, the final sort moves nothing: the body written is these rows as
    they stand, followed by the rows taken from NEW. *)
Theorem sorted_history_verbatim
        (fromisoformat : string -> option date) (a : args) (w : world)
        (header : row) (new_body old_body : list row) (di : nat)
        (cutoff : date) (e : effects) :
  loaded a w header new_body old_body di cutoff ->
  run fromisoformat a w = (e, Next tt) ->
  StronglySorted (row_le fromisoformat di)
                 (keep_old fromisoformat header di cutoff old_body) ->
  exists new_recent from_new,
    index_new fromisoformat header di cutoff new_body [] = Ok new_recent
    /\ mapM (Dict.get new_recent)
            (sorted (fun d => d) (Dict.keys new_recent)) = Ok from_new
    /\ written e
       = [(arg_out a,
           header :: keep_old fromisoformat header di cutoff old_body
                     ++ from_new)].
Proof.
  intros Hl Hrun Hs.
  destruct (run_loaded_Next fromisoformat a w _ _ _ _ _ e Hl Hrun)
    as (nr & Hnr & ->).
  destruct (new_recent_inv fromisoformat header di cutoff new_body nr Hnr)
    as [Hnd _].
  exists nr, (recent nr). split; [exact Hnr|].
  split; [apply recent_ok, Hnd|]. simpl.
  rewrite (body_verbatim fromisoformat header di cutoff new_body old_body
             nr Hnr Hs).
  reflexivity.
Qed.

Lemma sorted_history_verbatim_witness :
  written (fst (run Date.fromisoformat_ymd Scenario.a Scenario.w))
  = [("out.csv"%string,
      Scenario.header
        :: [["2024-01-01"; "1"]; ["2024-01-02"; "2"]; ["2024-01-03"; "3"]]%string
           ++ [["2024-01-04"; "40"]; ["2024-01-05"; "50"];
               ["2024-01-06"; "60"]]%string)].
Proof.
  assert (Hl : loaded Scenario.a Scenario.w Scenario.header
                      (tl Scenario.new_table) (tl Scenario.old_table)
                      0 (mkdate 2024 1 4))
    by (repeat split; reflexivity).
  assert (Hs : StronglySorted (row_le Date.fromisoformat_ymd 0)
                 (keep_old Date.fromisoformat_ymd Scenario.header 0
                    (mkdate 2024 1 4) (tl Scenario.old_table))).
  { repeat constructor. }
  destruct (sorted_history_verbatim Date.fromisoformat_ymd
              Scenario.a Scenario.w Scenario.header
              (tl Scenario.new_table) (tl Scenario.old_table) 0
              (mkdate 2024 1 4)
              (fst (run Date.fromisoformat_ymd Scenario.a Scenario.w))
              Hl eq_refl Hs) as (nr & from_new & Hnr & Hfrom & Hw).
  cbv in Hnr. injection Hnr as <-. cbv in Hfrom. injection Hfrom as <-.
  exact Hw.
Defined.

(** ** Runs with no history *)

Lemma body_without_history (fromisoformat : string -> option date)
      (header : row) (di : nat) (cutoff : date)
      (new_body old_body : list row) (nr : Dict.t) :
  index_new fromisoformat header di cutoff new_body [] = Ok nr ->
  keep_old fromisoformat header di cutoff old_body = [] ->
  sorted (key fromisoformat di)
         (keep_old fromisoformat header di cutoff old_body ++ recent nr)
  = recent nr.
Proof.
  intros Hnr Hk.
  rewrite (body_verbatim fromisoformat header di cutoff new_body old_body
             nr Hnr); rewrite Hk; [reflexivity | constructor].
Qed.



(** X9.  The rows of OLD are measured against the header of NEW: when none
    of them has as many fields as that header (a column was added or
    removed since), the whole history is left out and the body written is
    made of rows of NEW only. *)
Theorem old_of_other_width_dropped
        (fromisoformat : string -> option date) (a : args) (w : world)
        (header : row) (new_body old_body : list row) (di : nat)
        (cutoff : date) (e : effects) :
  loaded a w header new_body old_body di cutoff ->
  run fromisoformat a w = (e, Next tt) ->
  Forall (fun r => List.length r <> List.length header) old_body ->
  exists new_recent from_new,
    index_new fromisoformat header di cutoff new_body [] = Ok new_recent
    /\ mapM (Dict.get new_recent)
            (sorted (fun d => d) (Dict.keys new_recent)) = Ok from_new
    /\ written e = [(arg_out a, header :: from_new)].
Proof.
  intros Hl Hrun Hall.
  destruct (run_loaded_Next fromisoformat a w _ _ _ _ _ e Hl Hrun)
    as (nr & Hnr & ->).
  destruct (new_recent_inv fromisoformat header di cutoff new_body nr Hnr)
    as [Hnd _].
  exists nr, (recent nr). split; [exact Hnr|].
  split; [apply recent_ok, Hnd|]. simpl.
  rewrite (body_without_history fromisoformat header di cutoff new_body
             old_body nr Hnr); [reflexivity|].
  rewrite keep_old_filter.
  clear - Hall. induction Hall as [|r l Hr Hl IH]; simpl; [reflexivity|].
  apply Nat.eqb_neq in Hr. rewrite Hr. simpl. exact IH.
Qed.

Lemma old_of_other_width_dropped_witness :
  written (fst (run Date.fromisoformat_ymd Scenario.a Scenario2.w_wide))
  = [("out.csv"%string,
      Scenario.header
        :: [["2024-01-04"; "40"]; ["2024-01-05"; "50"];
            ["2024-01-06"; "60"]]%string)].
Proof.
  assert (Hl : loaded Scenario.a Scenario2.w_wide Scenario.header
                      (tl Scenario.new_table) (tl Scenario2.old_wide)
                      0 (mkdate 2024 1 4))
    by (repeat split; reflexivity).
  assert (Hall : Forall (fun r => List.length r <> List.length Scenario.header)
                        (tl Scenario2.old_wide)).
  { repeat constructor; discriminate. }
  destruct (old_of_other_width_dropped Date.fromisoformat_ymd
              Scenario.a Scenario2.w_wide Scenario.header
              (tl Scenario.new_table) (tl Scenario2.old_wide) 0
              (mkdate 2024 1 4)
              (fst (run Date.fromisoformat_ymd Scenario.a Scenario2.w_wide))
              Hl eq_refl Hall) as (nr & from_new & Hnr & Hfrom & Hw).
  cbv in Hnr. injection Hnr as <-. cbv in Hfrom. injection Hfrom as <-.
  exact Hw.
Defined.

(** ** Running again *)

(** X10.  Merging is idempotent: when the table a run has written is given
    as OLD to a second run with the same NEW, the same date column and the
    same cutoff (the same day and window), the second run ends well, warns
    of nothing and writes the same table again. *)
Theorem rerun_reproduces_output
        (fromisoformat : string -> option date) (a : args) (w : world)
        (header : row) (new_body old_body : list row) (di : nat)
        (cutoff : date) (e : effects)
        (a' : args) (w' : world) (p : string) (fo : file) :
  loaded a w header new_body old_body di cutoff ->
  run fromisoformat a w = (e, Next tt) ->
  read_csv w' (arg_new a') = read_csv w (arg_new a) ->
  date_col a' = date_col a ->
  keep_days a' = keep_days a ->
  today w' = today w ->
  old_given a' w' = Some p ->
  fs w' p = Some fo ->
  written e = [(arg_out a, f_rows fo)] ->
  run fromisoformat a' w' = (mkeff [] [(arg_out a', f_rows fo)], Next tt).
Proof.
  intros Hl Hrun Hn' Hc' Hk' Ht' Hg Hf Hw.
  destruct (run_loaded_Next fromisoformat a w _ _ _ _ _ e Hl Hrun)
    as (nr & Hnr & ->).
  simpl in Hw. injection Hw as Hrows.
  destruct Hl as (Hn & Hi & _ & Hc).
  assert (Hload : load_old no_fault a' w' header (mkeff [] [])
                  = (mkeff [] [], Next (f_rows fo))).
  { unfold load_old. rewrite Hg. unfold bind, lift, open_csv, no_fault, read_csv.
    rewrite Hf, <- Hrows. simpl.
    destruct (list_eq_dec string_dec header header); [|contradiction].
    reflexivity. }
  assert (Hwarn : warnings_of a' w' header = [])
    by (unfold warnings_of; rewrite Hload; reflexivity).
  assert (Ho : old_rows_of a' w' header = f_rows fo)
    by (unfold old_rows_of; rewrite Hload; reflexivity).
  rewrite <- Hn' in Hn. rewrite <- Hc' in Hi.
  rewrite (run_checked fromisoformat a' w' header new_body di Hn Hi).
  rewrite Hk', Ht', Hc, Hwarn, Ho, <- Hrows. simpl.
  rewrite (merge_idem fromisoformat header di cutoff new_body old_body nr Hnr).
  reflexivity.
Qed.

Lemma rerun_reproduces_output_witness :
  run Date.fromisoformat_ymd Scenario.a Scenario2.w_rerun
  = (mkeff [] [("out.csv"%string, Scenario.header :: Scenario.expected_body)],
     Next tt).
Proof.
  assert (Hl : loaded Scenario.a Scenario.w Scenario.header
                      (tl Scenario.new_table) (tl Scenario.old_table)
                      0 (mkdate 2024 1 4))
    by (repeat split; reflexivity).
  exact (rerun_reproduces_output Date.fromisoformat_ymd
           Scenario.a Scenario.w Scenario.header
           (tl Scenario.new_table) (tl Scenario.old_table) 0 (mkdate 2024 1 4)
           (fst (run Date.fromisoformat_ymd Scenario.a Scenario.w))
           Scenario.a Scenario2.w_rerun "old.csv"
           (mkfile 92 (Scenario.header :: Scenario.expected_body))
           Hl eq_refl eq_refl eq_refl eq_refl eq_refl eq_refl eq_refl eq_refl).
Defined.

(** ** How a run can end *)



(** X12.  The status of the process is 0, 1 or 2, and it is 2 in these
    cases only: [argparse] has refused the command line, or NEW was read and
    has no row, or NEW was read and its header does not hold the name of the
    date column. *)
Theorem exit_status_classified
        (fromisoformat : string -> option date) (io : faults) (c : parsed)
        (w : world) :
  (exit_status (snd (process fromisoformat io c w)) = 0%Z
   \/ exit_status (snd (process fromisoformat io c w)) = 1%Z
   \/ exit_status (snd (process fromisoformat io c w)) = 2%Z)
  /\ (exit_status (snd (process fromisoformat io c w)) = 2%Z <->
      (exists msg, c = UsageError msg)
      \/ (exists a rows,
             c = Parsed a
             /\ open_csv io w (arg_new a) = Ok rows
             /\ (rows = []
                 \/ exists header new_body,
                      rows = header :: new_body
                      /\ ~ In (date_col a) header))).
Proof.
  destruct c as [a| |msg].
  - destruct (open_csv io w (arg_new a)) as [[|header new_body]|x] eqn:E.
    + rewrite (process_empty fromisoformat io a w E). simpl.
      split; [auto|]. split; [|reflexivity]. intros _. right.
      exists a, []. auto.
    + destruct (index (date_col a) header) as [di|] eqn:Ei.
      * assert (Hs : exit_status (snd (process fromisoformat io (Parsed a) w))
                     = 0%Z
                     \/ exit_status
                          (snd (process fromisoformat io (Parsed a) w)) = 1%Z).
        { rewrite (process_checked fromisoformat io a w _ _ _ E Ei).
          rewrite (load_old_cases io a w header).
          destruct (old_given a w) as [p|];
            [destruct (open_csv io w p) as [[|oh ob]|x]|];
            try (right; reflexivity);
            (destruct (Date.sub_days (today w) (keep_days a)) as [cutoff|x];
             [|right; reflexivity]);
            match goal with
            | |- context [merge ?f ?h ?d ?c ?n ?o] =>
                destruct (merge f h d c n o); [left | right]; reflexivity
            end. }
        split; [tauto|]. split.
        -- intros H. destruct Hs as [Hs|Hs]; rewrite Hs in H; discriminate.
        -- intros [[msg Hc]|(a' & rows & Hc & Hr & Hrows)]; [discriminate|].
           injection Hc as <-. rewrite E in Hr. injection Hr as <-.
           destruct Hrows as [Hrows|(h & nb & Hrows & Hnin)];
             [discriminate|].
           injection Hrows as <- <-. apply index_None in Hnin. congruence.
      * rewrite (process_no_column fromisoformat io a w _ _ E Ei). simpl.
        split; [auto|]. split; [|reflexivity]. intros _. right.
        exists a, (header :: new_body). split; [reflexivity|].
        split; [exact E|]. right. exists header, new_body.
        split; [reflexivity | apply index_None, Ei].
    + rewrite (process_unreadable fromisoformat io a w x E). simpl.
      split; [auto|]. split; [discriminate|].
      intros [[msg Hc]|(a' & rows & Hc & Hr & _)]; [discriminate|].
      injection Hc as <-. rewrite E in Hr. discriminate.
  - simpl. split; [auto|]. split; [discriminate|].
    intros [[msg Hc]|(a & rows & Hc & _)]; discriminate.
  - simpl. split; [auto|]. split; [|reflexivity]. intros _. left.
    exists msg. reflexivity.
Qed.

(** X13.  A window of days that is no [timedelta], or that leads out of the
    years 1 to 9999, ends the run in [OverflowError] once NEW has passed its
    checks: nothing is written. *)
Theorem window_out_of_range_overflows
        (fromisoformat : string -> option date) (a : args) (w : world)
        (header : row) (new_body : list row) (di : nat) :
  read_csv w (arg_new a) = Ok (header :: new_body) ->
  index (date_col a) header = Some di ->
  (999999999 < Z.abs (keep_days a)
   \/ Date.toordinal (today w) - keep_days a <= 0
   \/ Date.MAXORDINAL < Date.toordinal (today w) - keep_days a)%Z ->
  run fromisoformat a w
  = (mkeff (warnings_of a w header) [], Halt (Uncaught OverflowError)).
Proof.
  intros Hr Hi Hk. rewrite (run_checked fromisoformat a w _ _ _ Hr Hi).
  assert (E : Date.sub_days (today w) (keep_days a) = Raise OverflowError).
  { unfold Date.sub_days.
    destruct (Z.abs (keep_days a) <=? 999999999)%Z eqn:E1; [|reflexivity].
    destruct ((0 <? Date.toordinal (today w) - keep_days a)%Z
              && (Date.toordinal (today w) - keep_days a <=? Date.MAXORDINAL)%Z)
      eqn:E2; [|reflexivity].
    apply andb_true_iff in E2. destruct E2 as [E2 E3].
    apply Z.leb_le in E1, E3. apply Z.ltb_lt in E2. lia. }
  rewrite E. reflexivity.
Qed.

Lemma window_out_of_range_overflows_witness :
  run Date.fromisoformat_ymd Scenario2.a_huge Scenario2.w_new
  = (mkeff [] [], Halt (Uncaught OverflowError)).
Proof.
  refine (window_out_of_range_overflows Date.fromisoformat_ymd
            Scenario2.a_huge Scenario2.w_new Scenario.header
            (tl Scenario.new_table) 0 eq_refl eq_refl _).
  left. reflexivity.
Defined.

(** X14.  Once NEW has passed its checks, the script prints on the error
    stream the warning of the headers or nothing, and the warning exactly
    when OLD was read and its first row is not the header of NEW; the error
    stream holds nothing else than the traceback of the interpreter, which
    is there exactly when the process dies of an exception. *)
Theorem warning_iff_headers_differ
        (fromisoformat : string -> option date) (io : faults) (a : args)
        (w : world) (header : row) (new_body : list row) (di : nat) :
  open_csv io w (arg_new a) = Ok (header :: new_body) ->
  index (date_col a) header = Some di ->
  (stderr (fst (process fromisoformat io (Parsed a) w)) = []
   \/ stderr (fst (process fromisoformat io (Parsed a) w)) = [WARNING])
  /\ (stderr (fst (process fromisoformat io (Parsed a) w)) = [WARNING] <->
      exists p oh ob,
        old_given a w = Some p
        /\ open_csv io w p = Ok (oh :: ob) /\ oh <> header)
  /\ (forall l,
         In l (error_stream (process fromisoformat io (Parsed a) w)) <->
         (l = Printed WARNING
          /\ stderr (fst (process fromisoformat io (Parsed a) w)) = [WARNING])
         \/ (exists x,
                l = Traceback x
                /\ snd (process fromisoformat io (Parsed a) w)
                   = Halt (Uncaught x))).
Proof.
  intros Hr Hi.
  assert (E : stderr (fst (process fromisoformat io (Parsed a) w))
              = stderr (fst (load_old io a w header (mkeff [] [])))).
  { rewrite (process_checked fromisoformat io a w _ _ _ Hr Hi).
    destruct (load_old io a w header (mkeff [] [])) as [e1 [old_rows|h]];
      [|reflexivity].
    destruct (Date.sub_days (today w) (keep_days a)) as [c|x]; [|reflexivity].
    destruct (merge fromisoformat header di c new_body _); reflexivity. }
  assert (Hiff : stderr (fst (load_old io a w header (mkeff [] [])))
                 = [WARNING] <->
                 exists p oh ob,
                   old_given a w = Some p
                   /\ open_csv io w p = Ok (oh :: ob) /\ oh <> header).
  { rewrite (load_old_cases io a w header).
    destruct (old_given a w) as [p|] eqn:Eg.
    - destruct (open_csv io w p) as [[|oh ob]|x] eqn:Eo; simpl.
      + split; [discriminate|].
        intros (p' & oh & ob & Hp & Ho & _). injection Hp as <-.
        rewrite Eo in Ho. discriminate.
      + destruct (list_eq_dec string_dec oh header) as [Heq|Hne]; simpl.
        * split; [discriminate|].
          intros (p' & oh' & ob' & Hp & Ho & Hne). injection Hp as <-.
          rewrite Eo in Ho. injection Ho as <- <-. contradiction.
        * split; [|reflexivity]. intros _. exists p, oh, ob.
          repeat split; [exact Eo | exact Hne].
      + split; [discriminate|].
        intros (p' & oh & ob & Hp & Ho & _). injection Hp as <-.
        rewrite Eo in Ho. discriminate.
    - simpl. split; [discriminate|].
      intros (p & _ & _ & Hp & _). discriminate. }
  assert (Hcases : stderr (fst (load_old io a w header (mkeff [] []))) = []
                   \/ stderr (fst (load_old io a w header (mkeff [] [])))
                      = [WARNING]).
  { rewrite (load_old_cases io a w header).
    destruct (old_given a w) as [p|]; [|left; reflexivity].
    destruct (open_csv io w p) as [[|oh ob]|x]; simpl;
      try (left; reflexivity).
    destruct (list_eq_dec string_dec oh header); [left | right]; reflexivity. }
  rewrite E. split; [exact Hcases|]. split; [exact Hiff|].
  intros l. unfold error_stream. rewrite in_app_iff, E. split.
  - intros [Hin|Hin].
    + left. destruct Hcases as [Hc|Hc]; rewrite Hc in Hin |- *; simpl in Hin.
      * contradiction.
      * destruct Hin as [<-|[]]. split; reflexivity.
    + right.
      destruct (snd (process fromisoformat io (Parsed a) w)) as [u|[c|x]];
        simpl in Hin; try contradiction.
      destruct Hin as [<-|[]]. exists x. split; reflexivity.
  - intros [[-> Hw]|(x & -> & Hx)].
    + left. rewrite Hw. left. reflexivity.
    + right. rewrite Hx. left. reflexivity.
Qed.

Lemma warning_iff_headers_differ_witness :
  stderr (fst (process Date.fromisoformat_ymd no_fault (Parsed Scenario.a)
                 Scenario.w)) = []
  /\ stderr (fst (process Date.fromisoformat_ymd no_fault (Parsed Scenario.a)
                    Scenario.w_drift)) = [WARNING].
Proof.
  split.
  - destruct (proj1 (warning_iff_headers_differ Date.fromisoformat_ymd
                       no_fault Scenario.a Scenario.w Scenario.header
                       (tl Scenario.new_table) 0 eq_refl eq_refl))
      as [H|H]; [exact H | discriminate H].
  - apply (proj1 (proj2 (warning_iff_headers_differ Date.fromisoformat_ymd
                           no_fault Scenario.a Scenario.w_drift
                           Scenario.header (tl Scenario.new_table) 0
                           eq_refl eq_refl))).
    exists "old.csv"%string, ["Date"; "Close"]%string,
           [["2024-01-01"; "1"]%string].
    repeat split; try reflexivity. discriminate.
Defined.


